(** * TelegramPCManager: the gatekeeping core of [bot.py]

    A shallow embedding of the access gate, the safety filter, the upload
    handlers, the volume cache and the microphone recording lifecycle of
    [bot.py], followed by the properties established about them.

    Conventions of the embedding.
    - A Python [int] is a [Z]; a Python [str] is the list of its Unicode
      code points ([Py.str]); [None] is [None].
    - Module-level globals that a function declares [global] become fields
      of an explicit state record that the function receives and returns.
    - Calls that leave the program (the Telegram transport, the platform
      audio endpoint, the sound device, the file system, the clock) take
      their outcome from an explicit argument; an outcome is either a
      returned value or a raised exception ([Py.outcome]). *)

From Stdlib Require Import ZArith NArith List Bool Lia String Ascii.
From Stdlib Require Import Floats.SpecFloat.
From stdpp Require Import base gmap list.
Import ListNotations.

Local Open Scope Z_scope.

(** ** Python values *)

Module Py.

(** A [str]: its code points, in order. *)
Definition str := list N.

(** The code points of an ASCII literal. *)
Definition lit (s : string) : str :=
  map N_of_ascii (list_ascii_of_string s).
Arguments lit s%_string.

(** The result of a call that may raise. *)
Inductive outcome (A : Type) : Type :=
| Returns (a : A)
| Raises.
Arguments Returns {A} a.
Arguments Raises {A}.

(** [x or d] on an optional string: [None] and [''] are both falsy. *)
Definition or_default (x : option str) (d : str) : str :=
  match x with
  | Some (c :: s) => c :: s
  | Some [] | None => d
  end.

(** [s.startswith(p)] *)
Fixpoint startswith (p s : str) : bool :=
  match p, s with
  | [], _ => true
  | _ :: _, [] => false
  | a :: p', b :: s' => N.eqb a b && startswith p' s'
  end.

(** [p in s], the substring test. *)
Fixpoint contains (p s : str) : bool :=
  startswith p s ||
  match s with
  | [] => false
  | _ :: s' => contains p s'
  end.

(** The lower-case mapping of one code point.  ASCII capitals map to
    their small letters.  Two further code points have a lower-case form
    that contains an ASCII letter: U+0130 (capital I with dot above)
    gives [i] followed by U+0307, and U+212A (the Kelvin sign) gives [k].
    Every other code point is mapped by Python to code points outside
    ASCII; they are left as they are here, which changes neither a
    substring test against an ASCII pattern nor an equality test against
    an ASCII string. *)
Definition lower_cp (c : N) : str :=
  if (65 <=? c)%N && (c <=? 90)%N then [(c + 32)%N]
  else if (c =? 304)%N then [105%N; 775%N]
  else if (c =? 8490)%N then [107%N]
  else [c].

(** [s.lower()] *)
Definition lower (s : str) : str := flat_map lower_cp s.

(** [s.lstrip(c)] for a one-character [c]. *)
Fixpoint lstrip (c : N) (s : str) : str :=
  match s with
  | x :: s' => if N.eqb x c then lstrip c s' else s
  | [] => []
  end.

(** [s[s.rfind(c):]] when [c] occurs in [s], [None] when [rfind] is -1. *)
Fixpoint from_last (c : N) (s : str) : option str :=
  match s with
  | [] => None
  | x :: s' =>
      match from_last c s' with
      | Some t => Some t
      | None => if N.eqb x c then Some s else None
      end
  end.

(** [s[:s.rfind(c)]] when [c] occurs in [s], [None] when [rfind] is -1. *)
Fixpoint upto_last (c : N) (s : str) : option str :=
  match s with
  | [] => None
  | x :: s' =>
      match upto_last c s' with
      | Some t => Some (x :: t)
      | None => if N.eqb x c then Some [] else None
      end
  end.

(** [s.replace(a, b)] for one-character [a] and [b]. *)
Definition replace (a b : N) (s : str) : str :=
  map (fun c => if N.eqb c a then b else c) s.

(** [s.split(c)] for a one-character separator: never an empty list. *)
Fixpoint split (c : N) (s : str) : list str :=
  match s with
  | [] => [[]]
  | x :: s' =>
      if N.eqb x c then [] :: split c s'
      else match split c s' with
           | w :: ws => (x :: w) :: ws
           | [] => [[x]]
           end
  end.

(** [s[i:]] where [i = s.find(c, start)], [None] when [find] is -1. *)
Fixpoint from_find (c : N) (start : nat) (s : str) : option str :=
  match start, s with
  | S k, _ :: s' => from_find c k s'
  | S _, [] => None
  | O, [] => None
  | O, x :: s' => if N.eqb x c then Some s else from_find c O s'
  end.

End Py.

(** ** AccessGate: lines 33-81 of bot.py *)

Module AccessGate.

(** [event.from_user]: the numeric id and the optional username. *)
Record user := User { id : Z; username : option Py.str }.

(** The two kinds of update the dispatcher polls for
    ([allowed_updates=["message", "callback_query"]]). *)
Inductive update_kind := Message | CallbackQuery.

Record event := Event { kind : update_kind; from_user : user }.

(** One line printed by [log_unauthorized_attempt]:
    the id, the username and the attempt number. *)
Record diagnostic := Diagnostic
  { diag_id : Z; diag_username : option Py.str; diag_attempt : Z }.

(** The state the middlewares read and write:
    - [_unauthorized_attempts], the module-level dict;
    - [printed], what [print] has written so far, oldest first;
    - [alerts], the ids answered with the "no access" alert;
    - [handled], the events that were passed on to [handler]. *)
Record gate := Gate
  { _unauthorized_attempts : gmap Z Z;
    printed : list diagnostic;
    alerts : list Z;
    handled : list event }.

(** The state at process start: [_unauthorized_attempts = {}]. *)
Definition startup : gate :=
  {| _unauthorized_attempts := ∅; printed := []; alerts := []; handled := [] |}.

Definition _MAX_ATTEMPTS : Z := 5.

(** [_unauthorized_attempts.get(user_id, 0)] *)
Definition attempts (g : gate) (user_id : Z) : Z :=
  default 0 (_unauthorized_attempts g !! user_id).

(** What the middleware did with an event. *)
Inductive verdict := Admit | Drop | Alert.

Section Gate.

(** [config.ALLOWED_USER_IDS]; the module [config] is not part of the
    sources, the list is fixed for the life of the process. *)
Variable ALLOWED_USER_IDS : list Z.

(** [user_id in config.ALLOWED_USER_IDS] *)
Definition is_authorized (user_id : Z) : bool :=
  existsb (Z.eqb user_id) ALLOWED_USER_IDS.

Definition log_unauthorized_attempt
    (user_id : Z) (uname : option Py.str) (g : gate) : gate :=
  let n := attempts g user_id + 1 in
  {| _unauthorized_attempts := <[user_id := n]> (_unauthorized_attempts g);
     printed :=
       if n <=? _MAX_ATTEMPTS
       then printed g ++ [Diagnostic user_id uname n]
       else printed g;
     alerts := alerts g;
     handled := handled g |}.

Definition is_blocked (g : gate) (user_id : Z) : bool :=
  _MAX_ATTEMPTS <? attempts g user_id.

(** [return await handler(event, data)] *)
Definition call_handler (ev : event) (g : gate) : gate :=
  {| _unauthorized_attempts := _unauthorized_attempts g;
     printed := printed g;
     alerts := alerts g;
     handled := handled g ++ [ev] |}.

(** [await event.answer("... no access", show_alert=True)] *)
Definition answer_alert (user_id : Z) (g : gate) : gate :=
  {| _unauthorized_attempts := _unauthorized_attempts g;
     printed := printed g;
     alerts := alerts g ++ [user_id];
     handled := handled g |}.

(** The outer middleware of [dp.message]. *)
Definition auth_middleware (ev : event) (g : gate) : gate * verdict :=
  let user_id := id (from_user ev) in
  if is_blocked g user_id then (g, Drop)
  else if negb (is_authorized user_id) then
    (log_unauthorized_attempt user_id (username (from_user ev)) g, Drop)
  else (call_handler ev g, Admit).

(** The outer middleware of [dp.callback_query]. *)
Definition auth_callback_middleware (ev : event) (g : gate) : gate * verdict :=
  let user_id := id (from_user ev) in
  if is_blocked g user_id then (g, Drop)
  else if negb (is_authorized user_id) then
    (answer_alert user_id
       (log_unauthorized_attempt user_id (username (from_user ev)) g),
     Alert)
  else (call_handler ev g, Admit).

(** The dispatcher runs the outer middleware registered for the kind of
    the update; the handlers are reached through it and in no other way. *)
Definition feed (ev : event) (g : gate) : gate * verdict :=
  match kind ev with
  | Message => auth_middleware ev g
  | CallbackQuery => auth_callback_middleware ev g
  end.

(** The event loop handles one update at a time, to completion. *)
Definition run (evs : list event) (g : gate) : gate :=
  fold_left (fun g ev => fst (feed ev g)) evs g.

End Gate.

(** The number of events of [evs] sent by [user_id]. *)
Definition sent_by (user_id : Z) (evs : list event) : Z :=
  Z.of_nat (length (filter (fun ev => id (from_user ev) = user_id) evs)).

(** The diagnostics printed about [user_id]. *)
Definition printed_about (user_id : Z) (g : gate) : list diagnostic :=
  filter (fun d => diag_id d = user_id) (printed g).

(** The events of [user_id] that reached a handler. *)
Definition handled_from (user_id : Z) (g : gate) : list event :=
  filter (fun ev => id (from_user ev) = user_id) (handled g).

(** *** A scenario

    A process that allows the single id 1001 and is probed by id 666. *)
Definition probe (k : update_kind) : event := Event k (User 666 None).
Definition owner (k : update_kind) : event := Event k (User 1001 None).
Definition probing : list event :=
  [ probe Message; probe CallbackQuery; owner Message; probe Message;
    probe Message; probe CallbackQuery; probe Message; owner CallbackQuery;
    probe Message; probe CallbackQuery ].

End AccessGate.

(** ** pathlib, as [is_file_allowed] and [handle_document] use it

    [Path(filename)] with the Windows flavour (the bot drives a Windows
    host: [ctypes.windll], [os.startfile], PowerShell), Python 3.14 as the
    module docstring of bot.py states. *)

Module Path.

Definition sep : N := 92.     (* backslash *)
Definition altsep : N := 47.  (* slash *)
Definition colon : N := 58.
Definition dot : N := 46.

(** [normp[:8].upper() == '\\\\?\\UNC\\'], the prefix being two backslashes,
    a question mark, a backslash, [UNC] and a backslash: only the three
    letters have another case. *)
Definition has_unc_prefix (normp : Py.str) : bool :=
  match normp with
  | c0 :: c1 :: c2 :: c3 :: c4 :: c5 :: c6 :: c7 :: _ =>
      N.eqb c0 sep && N.eqb c1 sep && N.eqb c2 63 && N.eqb c3 sep
      && (N.eqb c4 85 || N.eqb c4 117)
      && (N.eqb c5 78 || N.eqb c5 110)
      && (N.eqb c6 67 || N.eqb c6 99)
      && N.eqb c7 sep
  | _ => false
  end.

(** The third component of [ntpath.splitroot(p)]: what follows the drive
    and the root.  [p] has had its slashes replaced by backslashes, so
    [normp] is [p]. *)
Definition splitroot_rel (p : Py.str) : Py.str :=
  match p with
  | [] => []
  | c0 :: p1 =>
      if N.eqb c0 sep then
        match p1 with
        | c1 :: _ =>
            if N.eqb c1 sep then
              (* UNC and device drives: the drive runs up to the second
                 separator found from [start] on *)
              let start := if has_unc_prefix p then 8%nat else 2%nat in
              match Py.from_find sep start p with
              | None => []
              | Some at_index =>
                  match Py.from_find sep 1 at_index with
                  | None => []
                  | Some at_index2 => tl at_index2
                  end
              end
            else p1                       (* a root without a drive *)
        | [] => p1
        end
      else
        match p1 with
        | c1 :: p2 =>
            if N.eqb c1 colon then
              match p2 with
              | c2 :: p3 => if N.eqb c2 sep then p3 else p2
              | [] => p2
              end
            else p
        | [] => p
        end
  end.

(** The parts of [PurePath._parse_path]: the components of the relative
    part that are neither empty nor a single dot. *)
Definition tail (path : Py.str) : list Py.str :=
  filter (fun x => x ≠ [] ∧ x ≠ [dot])
         (Py.split sep (splitroot_rel (Py.replace altsep sep path))).

(** [Path(path).name]: the final component, [''] when there is none. *)
Definition name (path : Py.str) : Py.str := List.last (tail path) [].

(** [Path(path).suffix]: leading dots of the name are not a suffix. *)
Definition suffix (path : Py.str) : Py.str :=
  match Py.from_last dot (Py.lstrip dot (name path)) with
  | Some s => s
  | None => []
  end.

(** [Path(path).stem]: the name without its suffix; the stem keeps at
    least one character that is not a dot. *)
Definition stem (path : Py.str) : Py.str :=
  match Py.upto_last dot (name path) with
  | Some s =>
      match Py.lstrip dot s with
      | [] => name path
      | _ :: _ => s
      end
  | None => name path
  end.

(** A plain file name: no separator of either kind and no colon. *)
Definition plain (s : Py.str) : Prop :=
  Forall (fun c => c ≠ sep /\ c ≠ altsep /\ c ≠ colon) s.

End Path.

(** ** SafetyFilter: lines 1486-1487 and 1534-1551 of bot.py *)

Module SafetyFilter.

(** The list literal of [cmd_execute]. *)
Definition dangerous_patterns : list Py.str :=
  [ Py.lit "format"; Py.lit "del /s"; Py.lit "rd /s"; Py.lit "rmdir /s";
    Py.lit ":(){:|"; Py.lit "rm -rf" ].

(** [any(p in command.lower() for p in dangerous_patterns)] *)
Definition is_dangerous (command : Py.str) : bool :=
  existsb (fun p => Py.contains p (Py.lower command)) dangerous_patterns.

(** What [cmd_execute] answers. *)
Inductive shell_reply :=
| Usage
| Blocked
| Ran (command : Py.str).

(** [cmd_execute], given [args = message.text.split(maxsplit=1)]: the
    command word and, when there is one, the rest of the line.
    [Ran command] stands for the [subprocess.run(command, shell=True, ...)]
    branch and the answer it sends; [None] is the silent return. *)
Definition cmd_execute (allowed : list Z) (user_id : Z) (args : list Py.str)
  : option shell_reply :=
  if negb (AccessGate.is_authorized allowed user_id) then None
  else
    match args with
    | _ :: command :: _ =>
        if is_dangerous command then Some Blocked else Some (Ran command)
    | _ => Some Usage
    end.

Definition BLOCKED_EXTENSIONS : gset Py.str :=
  list_to_set
    [ Py.lit ".exe"; Py.lit ".bat"; Py.lit ".cmd"; Py.lit ".com";
      Py.lit ".scr"; Py.lit ".pif";
      Py.lit ".msi"; Py.lit ".msp";
      Py.lit ".vbs"; Py.lit ".vbe"; Py.lit ".js"; Py.lit ".jse";
      Py.lit ".ws"; Py.lit ".wsf"; Py.lit ".wsc"; Py.lit ".wsh";
      Py.lit ".ps1"; Py.lit ".psm1"; Py.lit ".psd1";
      Py.lit ".reg";
      Py.lit ".lnk";
      Py.lit ".dll"; Py.lit ".sys";
      Py.lit ".jar" ].

Definition is_file_allowed (filename : Py.str) : bool :=
  match filename with
  | [] => true
  | _ :: _ =>
      let ext := Py.lower (Path.suffix filename) in
      negb (bool_decide (ext ∈ BLOCKED_EXTENSIONS))
  end.

End SafetyFilter.

(** ** File uploads: lines 1554-1698 of bot.py *)

Module Uploads.

Definition bytes := list N.

(** The host side of an upload.  A file below [DOWNLOADS_DIR] is named by
    its path relative to that directory, which is the string the handlers
    join to [DOWNLOADS_DIR]; [opened] lists what [os.startfile] was called
    on.  The handlers are followed for file names that have a final
    component and stay below [DOWNLOADS_DIR]; for such a name the stem
    and the suffix of the joined path are those of the name. *)
Record host := Host
  { downloads : gmap Py.str bytes;
    opened : list Py.str }.

(** The attachment a message carries, with the [file_name] the sender
    chose where the transport has one. *)
Inductive attachment :=
| Photo
| Document (file_name : option Py.str)
| Video (file_name : option Py.str)
| Audio (file_name : option Py.str)
| Voice.

(** What the outside world answers while one message is handled:
    [datetime.now()] formatted with ["%Y%m%d_%H%M%S"] and with ["%H%M%S"],
    [bot.get_file] and the content [bot.download_file] fetches. *)
Record env := Env
  { now_date_time : Py.str;
    now_time : Py.str;
    get_file : Py.outcome unit;
    download_file : Py.outcome bytes }.

(** The answers sent back, by what they report. *)
Inductive reply :=
| PolicyDenied (ext : Py.str)
| Downloading
| Saved (filename : Py.str)
| Failed.

(** [filepath.exists()] *)
Definition exists_ (filepath : Py.str) (h : host) : bool :=
  bool_decide (is_Some (downloads h !! filepath)).

(** [await bot.download_file(file.file_path, filepath)] *)
Definition write (filepath : Py.str) (data : bytes) (h : host) : host :=
  {| downloads := <[filepath := data]> (downloads h); opened := opened h |}.

(** [os.startfile(str(filepath))] *)
Definition startfile (filepath : Py.str) (h : host) : host :=
  {| downloads := downloads h; opened := opened h ++ [filepath] |}.

Section Handlers.

Variable ALLOWED_USER_IDS : list Z.

Definition handle_photo (user_id : Z) (e : env) (h : host)
  : host * list reply :=
  if negb (AccessGate.is_authorized ALLOWED_USER_IDS user_id) then (h, [])
  else
    match get_file e with
    | Py.Raises => (h, [Failed])
    | Py.Returns _ =>
        let filename := Py.lit "photo_" ++ now_date_time e ++ Py.lit ".jpg" in
        let filepath := filename in
        match download_file e with
        | Py.Raises => (h, [Failed])
        | Py.Returns data =>
            (startfile filepath (write filepath data h), [Saved filepath])
        end
    end.

Definition handle_document (user_id : Z) (file_name : option Py.str)
    (e : env) (h : host) : host * list reply :=
  if negb (AccessGate.is_authorized ALLOWED_USER_IDS user_id) then (h, [])
  else
    let filename :=
      Py.or_default file_name (Py.lit "file_" ++ now_date_time e) in
    if negb (SafetyFilter.is_file_allowed filename) then
      (h, [PolicyDenied (Path.suffix filename)])
    else
      match get_file e with
      | Py.Raises => (h, [Failed])
      | Py.Returns _ =>
          let filepath :=
            if exists_ filename h then
              Path.stem filename ++ Py.lit "_" ++ now_time e
                ++ Path.suffix filename
            else filename in
          match download_file e with
          | Py.Raises => (h, [Failed])
          | Py.Returns data => (write filepath data h, [Saved filename])
          end
      end.

Definition handle_video (user_id : Z) (file_name : option Py.str)
    (e : env) (h : host) : host * list reply :=
  if negb (AccessGate.is_authorized ALLOWED_USER_IDS user_id) then (h, [])
  else
    match get_file e with
    | Py.Raises => (h, [Failed])
    | Py.Returns _ =>
        let filename :=
          Py.or_default file_name
            (Py.lit "video_" ++ now_date_time e ++ Py.lit ".mp4") in
        let filepath := filename in
        match download_file e with
        | Py.Raises => (h, [Downloading; Failed])
        | Py.Returns data =>
            (write filepath data h, [Downloading; Saved filename])
        end
    end.

Definition handle_audio (user_id : Z) (file_name : option Py.str)
    (e : env) (h : host) : host * list reply :=
  if negb (AccessGate.is_authorized ALLOWED_USER_IDS user_id) then (h, [])
  else
    match get_file e with
    | Py.Raises => (h, [Failed])
    | Py.Returns _ =>
        let filename :=
          Py.or_default file_name
            (Py.lit "audio_" ++ now_date_time e ++ Py.lit ".mp3") in
        let filepath := filename in
        match download_file e with
        | Py.Raises => (h, [Failed])
        | Py.Returns data => (write filepath data h, [Saved filename])
        end
    end.

Definition handle_voice (user_id : Z) (e : env) (h : host)
  : host * list reply :=
  if negb (AccessGate.is_authorized ALLOWED_USER_IDS user_id) then (h, [])
  else
    match get_file e with
    | Py.Raises => (h, [Failed])
    | Py.Returns _ =>
        let filename := Py.lit "voice_" ++ now_date_time e ++ Py.lit ".ogg" in
        let filepath := filename in
        match download_file e with
        | Py.Raises => (h, [Failed])
        | Py.Returns data => (write filepath data h, [Saved filename])
        end
    end.

(** The handler the dispatcher selects for an attachment
    ([F.photo], [F.document], [F.video], [F.audio], [F.voice]). *)
Definition handle_upload (user_id : Z) (a : attachment) (e : env) (h : host)
  : host * list reply :=
  match a with
  | Photo => handle_photo user_id e h
  | Document file_name => handle_document user_id file_name e h
  | Video file_name => handle_video user_id file_name e h
  | Audio file_name => handle_audio user_id file_name e h
  | Voice => handle_voice user_id e h
  end.

End Handlers.

(** The name under which an attachment is offered for storage: the
    sender's [file_name] or the handler's default. *)
Definition offered_name (a : attachment) (e : env) : Py.str :=
  match a with
  | Photo => Py.lit "photo_" ++ now_date_time e ++ Py.lit ".jpg"
  | Document file_name =>
      Py.or_default file_name (Py.lit "file_" ++ now_date_time e)
  | Video file_name =>
      Py.or_default file_name
        (Py.lit "video_" ++ now_date_time e ++ Py.lit ".mp4")
  | Audio file_name =>
      Py.or_default file_name
        (Py.lit "audio_" ++ now_date_time e ++ Py.lit ".mp3")
  | Voice => Py.lit "voice_" ++ now_date_time e ++ Py.lit ".ogg"
  end.

(** *** Scenarios *)

(** An upload whose transfer succeeds, the clock showing 14:30:05. *)
Definition delivery (data : bytes) : env :=
  {| now_date_time := Py.lit "20261104_143005";
     now_time := Py.lit "143005";
     get_file := Py.Returns tt;
     download_file := Py.Returns data |}.

Definition empty_host : host := {| downloads := ∅; opened := [] |}.

(** A downloads directory that already holds "clip.mp4". *)
Definition host_with_clip (old : bytes) : host :=
  {| downloads := {[ Py.lit "clip.mp4" := old ]}; opened := [] |}.

End Uploads.

(** ** Python floats

    A Python [float] is an IEEE 754 binary64 number; its arithmetic is the
    correctly rounded one of [SpecFloat] at precision 53. *)

Module PyFloat.

Definition float := spec_float.

Definition prec : Z := 53.
Definition emax : Z := 1024.

(** [float(z)] *)
Definition of_int (z : Z) : float := binary_normalize prec emax z 0 false.

(** [a / b] on two ints below 2^53: the rounded quotient. *)
Definition truediv (a b : Z) : float := SFdiv prec emax (of_int a) (of_int b).

(** [x * z] for a float [x] and an int [z]. *)
Definition mul_int (x : float) (z : Z) : float :=
  SFmul prec emax x (of_int z).

(** [int(x)]: truncation towards zero; raises on an infinity or a NaN. *)
Definition to_int (x : float) : Py.outcome Z :=
  match x with
  | S754_zero _ => Py.Returns 0
  | S754_finite s m e =>
      let magnitude :=
        match e with
        | Z0 => Zpos m
        | Zpos _ => Zpos m * 2 ^ e
        | Zneg p => Zpos m / 2 ^ Zpos p
        end in
      Py.Returns (if s then - magnitude else magnitude)
  | S754_infinity _ | S754_nan => Py.Raises
  end.

(** The nearest binary32 number, as a binary64 one: what a value becomes
    when it crosses a [c_float] parameter. *)
Definition c_float (x : float) : float :=
  match x with
  | S754_finite s m e =>
      binary_normalize 24 128 (if s then Zneg m else Zpos m) e s
  | _ => x
  end.

End PyFloat.

(** ** Volume: lines 86-126 of bot.py *)

Module Volume.

(** The two module-level globals.  The interface, once resolved, is a
    handle on the endpoint of the default speakers; it carries no data of
    its own here. *)
Record audio := Audio
  { _cached_volume_level : Z;
    _volume_interface : option unit }.

Definition startup : audio :=
  {| _cached_volume_level := 50; _volume_interface := None |}.

(** The platform audio subsystem at the time of a call: whether
    [AudioUtilities.GetSpeakers()] and [.EndpointVolume] succeed, whether
    calls on the endpoint succeed, and the master level it holds. *)
Record platform := Platform
  { speakers_ok : bool;
    endpoint_ok : bool;
    master_scalar : PyFloat.float }.

Definition _get_volume_interface (a : audio) (p : platform)
  : audio * option unit :=
  match _volume_interface a with
  | Some v => (a, Some v)
  | None =>
      if speakers_ok p then
        ({| _cached_volume_level := _cached_volume_level a;
            _volume_interface := Some tt |}, Some tt)
      else (a, None)
  end.

(** [volume.GetMasterVolumeLevelScalar()] *)
Definition GetMasterVolumeLevelScalar (p : platform) : Py.outcome PyFloat.float :=
  if endpoint_ok p then Py.Returns (master_scalar p) else Py.Raises.

Definition get_current_volume (a : audio) (p : platform) : audio * Z :=
  let '(a, volume) := _get_volume_interface a p in
  match volume with
  | Some _ =>
      match GetMasterVolumeLevelScalar p with
      | Py.Returns x =>
          match PyFloat.to_int (PyFloat.mul_int x 100) with
          | Py.Returns v =>
              ({| _cached_volume_level := v;
                  _volume_interface := _volume_interface a |}, v)
          | Py.Raises => (a, _cached_volume_level a)
          end
      | Py.Raises => (a, _cached_volume_level a)
      end
  | None => (a, _cached_volume_level a)
  end.

Section Endpoint.

(** How the endpoint keeps the level it is handed: [PyFloat.c_float]
    for the single-precision parameter of the COM method, or the
    identity for an endpoint that keeps every bit of the double. *)
Variable marshal : PyFloat.float -> PyFloat.float.

(** [volume.SetMasterVolumeLevelScalar(x, None)] *)
Definition SetMasterVolumeLevelScalar (x : PyFloat.float) (p : platform)
  : Py.outcome platform :=
  if endpoint_ok p then
    Py.Returns {| speakers_ok := speakers_ok p;
                  endpoint_ok := endpoint_ok p;
                  master_scalar := marshal x |}
  else Py.Raises.

Definition set_volume (level : Z) (a : audio) (p : platform)
  : audio * platform :=
  let level := Z.max 0 (Z.min 100 level) in
  let '(a, volume) := _get_volume_interface a p in
  match volume with
  | Some _ =>
      match SetMasterVolumeLevelScalar (PyFloat.truediv level 100) p with
      | Py.Returns p' =>
          ({| _cached_volume_level := level;
              _volume_interface := _volume_interface a |}, p')
      | Py.Raises => (a, p)
      end
  | None => (a, p)
  end.

(** [set_volume(level)] followed by [get_current_volume()], nothing
    else touching the endpoint in between. *)
Definition set_then_get (level : Z) (a : audio) (p : platform) : Z :=
  let '(a, p) := set_volume level a p in
  snd (get_current_volume a p).

End Endpoint.

(** [clamp(level, 0, 100)] *)
Definition clamp (level : Z) : Z :=
  if level <? 0 then 0 else if 100 <? level then 100 else level.

(** *** Scenarios *)

(** A platform on which every call succeeds. *)
Definition healthy (x : PyFloat.float) : platform :=
  {| speakers_ok := true; endpoint_ok := true; master_scalar := x |}.

(** What a read computes from the level a write of [level] leaves in the
    endpoint. *)
Definition read_back (marshal : PyFloat.float -> PyFloat.float) (level : Z)
  : Py.outcome Z :=
  PyFloat.to_int (PyFloat.mul_int (marshal (PyFloat.truediv level 100)) 100).

(** A cache holding 35, no handle resolved, and the speakers gone. *)
Definition cached_35 : audio :=
  {| _cached_volume_level := 35; _volume_interface := None |}.
Definition speakers_gone : platform :=
  {| speakers_ok := false; endpoint_ok := true;
     master_scalar := PyFloat.truediv 80 100 |}.

End Volume.

(** ** Microphone recording: lines 394-467 of bot.py *)

Module Recording.

Definition _sample_rate : Z := 44100.

(** The encoded payload: the parameters given to the [wave] writer and
    the frame bytes written through it. *)
Record wav := Wav
  { nchannels : Z;
    sampwidth : Z;
    framerate : Z;
    frames : list N }.

(** The number of frames of a payload, as the writer puts it in the
    header: the data length over the size of one frame. *)
Definition nframes (w : wav) : Z :=
  Z.of_nat (length (frames w)) / (sampwidth w * nchannels w).

Section Recorder.

(** One captured sample (the stream is opened with one channel, so a
    frame is one sample) and its conversion
    [(x * 32767).astype(np.int16)]. *)
Variable sample : Type.
Variable astype_int16 : sample -> Z.

(** One block handed to the stream callback: its frames. *)
Definition block := list sample.

(** The module-level globals; [_recording_stream] is unbound until the
    first stream has been started. *)
Record recorder := Recorder
  { _recording : bool;
    _recording_data : list block;
    _recording_stream : option unit }.

Definition startup : recorder :=
  {| _recording := false; _recording_data := []; _recording_stream := None |}.

(** What the sound device answers to [start_recording]: whether
    [import sounddevice] succeeds and whether the input stream can be
    created and started. *)
Record start_env := StartEnv
  { import_sounddevice : bool;
    stream_start : bool }.

(** What the libraries answer to [stop_recording]: whether
    [import numpy], [io], [wave] succeed, whether the stream stops and
    closes, and whether concatenating and encoding succeed. *)
Record stop_env := StopEnv
  { import_numpy : bool;
    stream_close : bool;
    encode : bool }.

Definition start_recording (e : start_env) (r : recorder)
  : recorder * bool :=
  if _recording r then (r, false)
  else if negb (import_sounddevice e) then
    ({| _recording := false;
        _recording_data := _recording_data r;
        _recording_stream := _recording_stream r |}, false)
  else if negb (stream_start e) then
    ({| _recording := false;
        _recording_data := [];
        _recording_stream := _recording_stream r |}, false)
  else
    ({| _recording := true;
        _recording_data := [];
        _recording_stream := Some tt |}, true).

(** The stream callback, run by the sound device for every block. *)
Definition callback (indata : block) (r : recorder) : recorder :=
  if _recording r then
    {| _recording := _recording r;
       _recording_data := _recording_data r ++ [indata];
       _recording_stream := _recording_stream r |}
  else r.

(** [audio_int16.tobytes()]: two bytes per sample, low byte first. *)
Definition tobytes (samples : list sample) : list N :=
  flat_map
    (fun x =>
       let v := astype_int16 x mod 65536 in
       [Z.to_N (v mod 256); Z.to_N (v / 256)])
    samples.

(** The body of the [with wave.open(...)] block. *)
Definition encode_wav (data : list block) : wav :=
  let audio_data := concat data in
  {| nchannels := 1;
     sampwidth := 2;
     framerate := _sample_rate;
     frames := tobytes audio_data |}.

(** The [finally] clause. *)
Definition clear_data (r : recorder) : recorder :=
  {| _recording := _recording r;
     _recording_data := [];
     _recording_stream := _recording_stream r |}.

Definition stop_recording (e : stop_env) (r : recorder)
  : recorder * option wav :=
  if negb (_recording r) then (r, None)
  else
    let r := {| _recording := false;
                _recording_data := _recording_data r;
                _recording_stream := _recording_stream r |} in
    if negb (import_numpy e) then (clear_data r, None)
    else
      match _recording_stream r with
      | None => (clear_data r, None)
      | Some _ =>
          if negb (stream_close e) then (clear_data r, None)
          else
            match _recording_data r with
            | [] => (clear_data r, None)
            | _ :: _ =>
                if negb (encode e) then (clear_data r, None)
                else (clear_data r, Some (encode_wav (_recording_data r)))
            end
      end.

(** The total number of frames held in the buffer. *)
Definition buffered_frames (r : recorder) : Z :=
  Z.of_nat (length (concat (_recording_data r))).

(** The states the recorder can be in: the initial one, and those that
    a start, a stop or a delivered block lead to. *)
Inductive reachable : recorder -> Prop :=
| reach_startup : reachable startup
| reach_start e r :
    reachable r -> reachable (fst (start_recording e r))
| reach_callback indata r :
    reachable r -> reachable (callback indata r)
| reach_stop e r :
    reachable r -> reachable (fst (stop_recording e r)).

End Recorder.

Arguments Recorder {sample} _ _ _.
Arguments _recording {sample} r.
Arguments _recording_data {sample} r.
Arguments _recording_stream {sample} r.
Arguments start_recording {sample} e r.
Arguments callback {sample} indata r.
Arguments tobytes {sample} astype_int16 samples.
Arguments encode_wav {sample} astype_int16 data.
Arguments clear_data {sample} r.
Arguments stop_recording {sample} astype_int16 e r.
Arguments buffered_frames {sample} r.
Arguments reachable {sample} astype_int16 r.

(** *** A scenario *)

(** Samples taken as the integers they convert to. *)
Definition active : recorder Z :=
  fst (start_recording (StartEnv true true) (startup Z)).

End Recording.

(** ** Views on the gate and on the downloads directory *)

Module Views.
Import AccessGate Uploads.

#[global] Instance update_kind_eq_dec : EqDecision update_kind.
Proof. solve_decision. Defined.

(** The events of [evs] that [user_id] sent, in order. *)
Definition events_of (user_id : Z) (evs : list event) : list event :=
  filter (fun ev => id (from_user ev) = user_id) evs.

(** The callback queries among [evs]. *)
Definition callback_queries (evs : list event) : list event :=
  filter (fun ev => kind ev = CallbackQuery) evs.

(** The "no access" alerts that were sent to [user_id]. *)
Definition alerts_to (user_id : Z) (g : gate) : list Z :=
  filter (fun receiver => receiver = user_id) (alerts g).

(** The path, relative to [DOWNLOADS_DIR], that a handler downloads an
    attachment to: [filepath] at the [bot.download_file] call. *)
Definition stored_as (a : attachment) (e : env) (h : host) : Py.str :=
  match a with
  | Document _ =>
      let filename := offered_name a e in
      if exists_ filename h then
        Path.stem filename ++ Py.lit "_" ++ now_time e ++ Path.suffix filename
      else filename
  | _ => offered_name a e
  end.

(** A time stamp as [strftime] writes it for the formats of the handlers:
    digits and underscores, so no separator, no colon and no dot. *)
Definition stamp (s : Py.str) : Prop :=
  Forall (fun c => (48 <= c <= 57)%N \/ c = 95%N) s.

(** Whether the sender chose the name: the attachment carries a non-empty
    [file_name]. *)
Definition sender_named (a : attachment) : bool :=
  match a with
  | Document (Some (_ :: _)) | Video (Some (_ :: _)) | Audio (Some (_ :: _)) =>
      true
  | _ => false
  end.

End Views.

Module RecordingViews.
Import Recording.

(** The blocks the sound device hands to the callback, one after the
    other. *)
Definition deliver {sample} (blocks : list (block sample)) (r : recorder sample)
  : recorder sample :=
  fold_left (fun r indata => callback indata r) blocks r.

End RecordingViews.

Module VolumeViews.

(** A master level the endpoint accepts: a scalar whose value lies between
    0.0 and 1.0.  The value of a finite float is [m * 2^e]; it is compared
    as a number, whatever the precision the float was rounded to. *)
Definition in_unit (x : PyFloat.float) : bool :=
  match x with
  | S754_zero _ => true
  | S754_finite false m e =>
      match e with
      | Zneg p => Zpos m <=? 2 ^ Zpos p
      | _ => Zpos m * 2 ^ e <=? 1
      end
  | _ => false
  end.

End VolumeViews.

(** ** More of Python's [str] and [int]

    What the command and callback handlers use to take their input apart:
    whitespace splitting, substring replacement, slicing, [int(s)] and
    [str(n)]. *)

Module PyText.

(** [c.isspace()] for one character: the 29 white-space code points. *)
Definition isspace (c : N) : bool :=
  ((9 <=? c) && (c <=? 13) || (28 <=? c) && (c <=? 32)
   || (c =? 133) || (c =? 160) || (c =? 5760)
   || (8192 <=? c) && (c <=? 8202)
   || (c =? 8232) || (c =? 8233) || (c =? 8239) || (c =? 8287)
   || (c =? 12288))%N.

(** [s.lstrip()] *)
Fixpoint lstrip_ws (s : Py.str) : Py.str :=
  match s with
  | c :: s' => if isspace c then lstrip_ws s' else s
  | [] => []
  end.

(** The longest prefix without white space, and what follows it. *)
Fixpoint word_and_rest (s : Py.str) : Py.str * Py.str :=
  match s with
  | c :: s' =>
      if isspace c then ([], s)
      else let '(w, rest) := word_and_rest s' in (c :: w, rest)
  | [] => ([], [])
  end.

(** [s.split()]: the words between runs of white space; [word] is the
    word being read. *)
Fixpoint split_from (word : Py.str) (s : Py.str) : list Py.str :=
  match s with
  | [] => match word with [] => [] | _ :: _ => [word] end
  | c :: s' =>
      if isspace c then
        match word with
        | [] => split_from [] s'
        | _ :: _ => word :: split_from [] s'
        end
      else split_from (word ++ [c]) s'
  end.

Definition split (s : Py.str) : list Py.str := split_from [] s.

(** [s.split(maxsplit=1)]: the first word and, when something other than
    white space follows it, the rest of the text from its first character
    that is not white space, trailing white space included. *)
Definition split_maxsplit_1 (s : Py.str) : list Py.str :=
  match lstrip_ws s with
  | [] => []
  | c :: s' =>
      let '(word, rest) := word_and_rest (c :: s') in
      match lstrip_ws rest with
      | [] => [word]
      | d :: rest' => [word; d :: rest']
      end
  end.

(** [s.replace(old, new)] for a non-empty [old]: every occurrence, from
    the left, without overlap.  [fuel] bounds the recursion and is the
    length of [s]. *)
Fixpoint replace_from (fuel : nat) (old new s : Py.str) : Py.str :=
  match fuel with
  | O => s
  | S fuel' =>
      match s with
      | [] => []
      | c :: s' =>
          if Py.startswith old s
          then new ++ replace_from fuel' old new (drop (length old) s)
          else c :: replace_from fuel' old new s'
      end
  end.

Definition replace (old new s : Py.str) : Py.str :=
  match old with
  | [] => s      (* not used with an empty [old] *)
  | _ :: _ => replace_from (length s) old new s
  end.

(** [s[:n]] for [n >= 0]. *)
Definition upto (n : nat) (s : Py.str) : Py.str := take n s.

(** The idiom [s[:keep] + "..." if len(s) > limit else s], with the marker
    the call site appends. *)
Definition shorten (limit keep : nat) (marker s : Py.str) : Py.str :=
  if (limit <? length s)%nat then upto keep s ++ marker else s.

(** *** Integers *)

(** The part of the Unicode character database that [int(s)] and
    [s.isdigit()] consult: the decimal value of a character, and whether it
    is a digit of any kind.  The database is not part of the sources; only
    what it says about ASCII, and that decimal values are digit values, is
    fixed here. *)
Record unicode_data := UnicodeData
  { decimal : N -> option N;
    isdigit_char : N -> bool;
    decimal_ascii : forall c, (c < 128)%N ->
      decimal c = if ((48 <=? c) && (c <=? 57))%N then Some (c - 48)%N else None;
    isdigit_ascii : forall c, (c < 128)%N ->
      isdigit_char c = ((48 <=? c) && (c <=? 57))%N;
    decimal_below_ten : forall c d, decimal c = Some d -> (d <= 9)%N;
    decimal_isdigit : forall c d, decimal c = Some d -> isdigit_char c = true }.

(** The database that knows the ASCII digits only. *)
Definition ascii_digits : unicode_data.
Proof.
  refine {| decimal := fun c =>
              if ((48 <=? c) && (c <=? 57))%N then Some (c - 48)%N else None;
            isdigit_char := fun c => ((48 <=? c) && (c <=? 57))%N |}.
  - reflexivity.
  - reflexivity.
  - intros c d. destruct (N.leb_spec 48 c), (N.leb_spec c 57); cbn; try discriminate.
    intros [= <-]. lia.
  - intros c d. by destruct ((48 <=? c) && (c <=? 57))%N.
Defined.

(** [s.isdigit()]: not empty, and every character a digit. *)
Definition isdigit (db : unicode_data) (s : Py.str) : bool :=
  match s with
  | [] => false
  | _ :: _ => forallb (isdigit_char db) s
  end.

(** How [int] reads one character. *)
Inductive token :=
| Space
| Sign (negative : bool)
| Underscore
| Digit (d : N)
| Other.

(** ASCII characters stand for themselves, and of these only tab to
    carriage return and the blank are white space for [int]; a character
    from 127 on counts as a blank when it is white space and as its decimal
    value when it has one. *)
Definition token_of (db : unicode_data) (c : N) : token :=
  if (c <? 127)%N then
    if ((9 <=? c) && (c <=? 13) || (c =? 32))%N then Space
    else if (c =? 43)%N then Sign false
    else if (c =? 45)%N then Sign true
    else if (c =? 95)%N then Underscore
    else if ((48 <=? c) && (c <=? 57))%N then Digit (c - 48)%N
    else Other
  else if isspace c then Space
  else match decimal db c with
       | Some d => Digit d
       | None => Other
       end.

Fixpoint skip_spaces (ts : list token) : list token :=
  match ts with
  | Space :: ts' => skip_spaces ts'
  | _ => ts
  end.

(** The digits of a literal, most significant first, and what follows
    them.  An underscore must stand between two digits.  [None]: the
    literal is malformed. *)
Fixpoint digits_from (ts : list token) : option (list N * list token) :=
  match ts with
  | Digit d :: ts' =>
      match ts' with
      | Digit _ :: _ =>
          match digits_from ts' with
          | Some (ds, rest) => Some (d :: ds, rest)
          | None => None
          end
      | Underscore :: ((Digit _ :: _) as ts'') =>
          match digits_from ts'' with
          | Some (ds, rest) => Some (d :: ds, rest)
          | None => None
          end
      | Underscore :: _ => None
      | _ => Some ([d], ts')
      end
  | _ => None
  end.

(** The number a list of decimal digits writes. *)
Definition number (ds : list N) : N :=
  fold_left (fun acc d => (10 * acc + d)%N) ds 0%N.

(** [sys.get_int_max_str_digits()] *)
Definition max_str_digits : nat := 4300.

(** [int(s)] for a [str]: the value, or [ValueError]. *)
Definition int (db : unicode_data) (s : Py.str) : Py.outcome Z :=
  let ts := skip_spaces (map (token_of db) s) in
  let '(negative, ts) :=
    match ts with
    | Sign negative :: ts' => (negative, ts')
    | _ => (false, ts)
    end in
  match digits_from ts with
  | Some (ds, rest) =>
      match skip_spaces rest with
      | [] =>
          if (max_str_digits <? length ds)%nat then Py.Raises
          else
            let n := Z.of_N (number ds) in
            Py.Returns (if negative then - n else n)
      | _ :: _ => Py.Raises
      end
  | None => Py.Raises
  end.

(** The decimal digits of a positive number, most significant first.
    [fuel] bounds the recursion: a number below [2^fuel] needs no more. *)
Fixpoint digits_of (fuel : nat) (n : N) (acc : list N) : list N :=
  match fuel with
  | O => acc
  | S fuel' =>
      if (n <? 10)%N then n :: acc
      else digits_of fuel' (n / 10)%N ((n mod 10)%N :: acc)
  end.

(** The decimal digits of the absolute value of [z]. *)
Definition digits (z : Z) : list N :=
  let n := Z.abs_N z in
  digits_of (S (N.to_nat (N.log2 n))) n [].

(** The decimal writing of [z]: its digits, after a minus sign when it is
    negative. *)
Definition decimal_text (z : Z) : Py.str :=
  let text := map (fun d => (d + 48)%N) (digits z) in
  if z <? 0 then 45%N :: text else text.

(** [str(z)] and [f"{z}"]: the decimal writing, or [ValueError] past the
    digit limit. *)
Definition str_of_int (z : Z) : Py.outcome Py.str :=
  if (max_str_digits <? length (digits z))%nat then Py.Raises
  else Py.Returns (decimal_text z).

End PyText.

(** ** Text commands and plain text: lines 1325-1456 and 1701-1722 of bot.py *)

Module Commands.

(** What a browser command does: the usage hint, or the URL handed to
    [webbrowser.open]. *)
Inductive browse :=
| BrowseUsage
| Browse (url : Py.str).

Section Handlers.

Variable ALLOWED_USER_IDS : list Z.

(** [cmd_open]; [None] is the silent return for a sender who is not
    allow-listed. *)
Definition cmd_open (user_id : Z) (text : Py.str) : option browse :=
  if negb (AccessGate.is_authorized ALLOWED_USER_IDS user_id) then None
  else
    match PyText.split_maxsplit_1 text with
    | _ :: url :: _ =>
        let url :=
          if negb (Py.startswith (Py.lit "http://") url
                   || Py.startswith (Py.lit "https://") url)
          then Py.lit "https://" ++ url
          else url in
        Some (Browse url)
    | _ => Some BrowseUsage
    end.

(** [cmd_youtube] *)
Definition cmd_youtube (user_id : Z) (text : Py.str) : option browse :=
  if negb (AccessGate.is_authorized ALLOWED_USER_IDS user_id) then None
  else
    match PyText.split_maxsplit_1 text with
    | _ :: arg :: _ =>
        let query := PyText.replace (Py.lit " ") (Py.lit "+") arg in
        Some (Browse (Py.lit "https://www.youtube.com/results?search_query="
                        ++ query))
    | _ => Some BrowseUsage
    end.

(** [cmd_google] *)
Definition cmd_google (user_id : Z) (text : Py.str) : option browse :=
  if negb (AccessGate.is_authorized ALLOWED_USER_IDS user_id) then None
  else
    match PyText.split_maxsplit_1 text with
    | _ :: arg :: _ =>
        let query := PyText.replace (Py.lit " ") (Py.lit "+") arg in
        Some (Browse (Py.lit "https://www.google.com/search?q=" ++ query))
    | _ => Some BrowseUsage
    end.

(** The list [menu_buttons] of [handle_text]: the eight labels of the main
    keyboard, as code points (a pictograph, a blank and a Russian word
    each: volume, media, power, brightness, screenshot, clipboard, system,
    help). *)
Definition menu_buttons : list Py.str :=
  [ [128266; 32; 1043; 1088; 1086; 1084; 1082; 1086; 1089; 1090; 1100];
    [127925; 32; 1052; 1077; 1076; 1080; 1072];
    [9211; 32; 1055; 1080; 1090; 1072; 1085; 1080; 1077];
    [128161; 32; 1071; 1088; 1082; 1086; 1089; 1090; 1100];
    [128248; 32; 1057; 1082; 1088; 1080; 1085; 1096; 1086; 1090];
    [128203; 32; 1041; 1091; 1092; 1077; 1088];
    [128202; 32; 1057; 1080; 1089; 1090; 1077; 1084; 1072];
    [10067; 32; 1055; 1086; 1084; 1086; 1097; 1100] ]%N.

(** What [handle_text] does with a text it does not ignore: what it put on
    the clipboard and the preview it answered with, or the error answer. *)
Inductive clip :=
| Copied (clipboard preview : Py.str)
| CopyFailed.

(** [handle_text]; [copy] is what [import pyperclip] and [pyperclip.copy]
    do, and [None] is a return without an answer. *)
Definition handle_text (user_id : Z) (text : Py.str) (copy : Py.outcome unit)
  : option clip :=
  if negb (AccessGate.is_authorized ALLOWED_USER_IDS user_id) then None
  else if Py.startswith (Py.lit "/") text then None
  else if bool_decide (text ∈ menu_buttons) then None
  else
    match copy with
    | Py.Returns _ =>
        let preview := PyText.shorten 100 100 (Py.lit "...") text in
        Some (Copied text preview)
    | Py.Raises => Some CopyFailed
    end.

(** What [cmd_volume] answers: the usage hint, the level it reports as
    set, or the request for a number. *)
Inductive volume_reply :=
| VolumeUsage
| VolumeSet (shown : Z)
| NotANumber.

Variable db : PyText.unicode_data.
Variable marshal : PyFloat.float -> PyFloat.float.

(** [cmd_volume], with the volume globals and the platform it acts on. *)
Definition cmd_volume (user_id : Z) (text : Py.str)
    (a : Volume.audio) (p : Volume.platform)
  : option volume_reply * Volume.audio * Volume.platform :=
  if negb (AccessGate.is_authorized ALLOWED_USER_IDS user_id) then (None, a, p)
  else
    match PyText.split text with
    | _ :: arg :: _ =>
        match PyText.int db arg with
        | Py.Returns level =>
            let '(a, p) := Volume.set_volume marshal level a p in
            let '(a, shown) := Volume.get_current_volume a p in
            (Some (VolumeSet shown), a, p)
        | Py.Raises => (Some NotANumber, a, p)
        end
    | _ => (Some VolumeUsage, a, p)
    end.

(** What [cmd_shutdown] does: the usage hint, the argument list it runs
    [shutdown] with and the minutes and seconds it announces, or the
    request for a number of seconds. *)
Inductive shutdown_reply :=
| ShutdownUsage
| Scheduled (argv : list Py.str) (minutes seconds : Z)
| NotSeconds.

(** [cmd_shutdown] *)
Definition cmd_shutdown (user_id : Z) (text : Py.str) : option shutdown_reply :=
  if negb (AccessGate.is_authorized ALLOWED_USER_IDS user_id) then None
  else
    match PyText.split text with
    | _ :: arg :: _ =>
        match PyText.int db arg with
        | Py.Returns seconds =>
            match PyText.str_of_int seconds with
            | Py.Returns written =>
                let argv := [Py.lit "shutdown"; Py.lit "/s"; Py.lit "/t"; written] in
                let minutes := seconds / 60 in
                Some (Scheduled argv minutes seconds)
            | Py.Raises => Some NotSeconds
            end
        | Py.Raises => Some NotSeconds
        end
    | _ => Some ShutdownUsage
    end.

End Handlers.

(** A word as [split] returns it: not empty and free of white space. *)
Definition word (w : Py.str) : Prop :=
  w ≠ [] /\ Forall (fun c => PyText.isspace c = false) w.

End Commands.


(** ** Audio output devices: lines 160-273, 587-606 and 1026-1059 of bot.py *)

Module AudioDevices.

(** One entry of the list [get_audio_devices] returns: the dict with the
    keys ['id'], ['name'] and ['index']. *)
Record device := Device
  { id : Py.str;
    name : Py.str;
    index : Z }.

(** What the loop over the endpoint collection meets at one position:
    [Item], [GetId] or [CreateDevice] raises; [Item] returns a falsy
    object; or the endpoint's id and the [FriendlyName] of the device made
    from it ([None] also when the device object itself is falsy). *)
Inductive endpoint :=
| Fails
| Missing
| Endpoint (device_id : Py.str) (FriendlyName : option Py.str).

(** What happens outside the loop: the import, [GetDeviceEnumerator],
    [EnumAudioEndpoints] or [GetCount] raises; the enumerator is falsy; or
    the collection, with what each of its [GetCount()] positions holds. *)
Inductive enumeration :=
| Unavailable
| NoEnumerator
| Collection (items : list endpoint).

(** [s.rstrip()] and [s.strip()] *)
Definition rstrip_ws (s : Py.str) : Py.str := rev (PyText.lstrip_ws (rev s)).
Definition strip (s : Py.str) : Py.str := PyText.lstrip_ws (rstrip_ws s).

(** One pass of the loop body of [get_audio_devices] at position [i]: the
    dict appended, or [None] when the pass appends nothing (a falsy item,
    or an exception, which the inner handler answers with [continue]). *)
Definition entry (i : Z) (item : endpoint) : option device :=
  match item with
  | Fails | Missing => None
  | Endpoint device_id FriendlyName =>
      match FriendlyName with
      | Some (c :: s) => Some (Device device_id (c :: s) i)
      | Some [] | None =>
          match PyText.str_of_int i with
          | Py.Returns written =>
              Some (Device device_id (Py.lit "Device " ++ written) i)
          | Py.Raises => None
          end
      end
  end.

(** The loop [for i in range(count)], from position [i] on. *)
Fixpoint collect (i : Z) (items : list endpoint) : list device :=
  match items with
  | [] => []
  | item :: rest =>
      match entry i item with
      | Some d => d :: collect (i + 1) rest
      | None => collect (i + 1) rest
      end
  end.

(** The loop of [get_audio_devices_powershell] over
    [enumerate(result.stdout.strip().split('\n'))], from line [i] on; an
    exception leaves the loop. *)
Fixpoint named_lines (i : Z) (lines : list Py.str)
  : Py.outcome (list device) :=
  match lines with
  | [] => Py.Returns []
  | name :: rest =>
      match strip name with
      | [] => named_lines (i + 1) rest
      | c :: s =>
          match PyText.str_of_int i with
          | Py.Returns written =>
              match named_lines (i + 1) rest with
              | Py.Returns devices =>
                  Py.Returns (Device written (c :: s) i :: devices)
              | Py.Raises => Py.Raises
              end
          | Py.Raises => Py.Raises
          end
      end
  end.

(** [get_audio_devices_powershell]; [result] is what [subprocess.run]
    does: the return code and the standard output of the script. *)
Definition get_audio_devices_powershell (result : Py.outcome (Z * Py.str))
  : list device :=
  match result with
  | Py.Returns (returncode, stdout) =>
      if returncode =? 0 then
        match named_lines 0 (Py.split 10 (strip stdout)) with
        | Py.Returns devices => devices
        | Py.Raises => []
        end
      else []
  | Py.Raises => []
  end.

(** [get_audio_devices] *)
Definition get_audio_devices (e : enumeration)
    (result : Py.outcome (Z * Py.str)) : list device :=
  match e with
  | Collection items => collect 0 items
  | NoEnumerator => []
  | Unavailable => get_audio_devices_powershell result
  end.

(** An inline button: its label and its callback data. *)
Record button := Button
  { text : Py.str;
    callback_data : Py.str }.

(** The two marks put before a device name, a check mark for the current
    device and a loudspeaker otherwise, and the label of the last button
    (an arrow and the Russian word for back). *)
Definition current_mark : Py.str := [9989; 32]%N.
Definition other_mark : Py.str := [128266; 32]%N.
Definition back_label : Py.str :=
  [11013; 65039; 32; 1053; 1072; 1079; 1072; 1076]%N.

(** One pass of the loop of [get_audio_devices_keyboard]: the row
    appended for [device]. *)
Definition device_row (current_device : Py.str) (d : device)
  : Py.outcome (list button) :=
  let shown := PyText.shorten 30 27 (Py.lit "...") (name d) in
  let prefix :=
    if Py.contains (name d) current_device
       || Py.contains current_device (name d)
    then current_mark else other_mark in
  match PyText.str_of_int (index d) with
  | Py.Returns written =>
      Py.Returns [Button (prefix ++ shown) (Py.lit "audio_" ++ written)]
  | Py.Raises => Py.Raises
  end.

Fixpoint device_rows (current_device : Py.str) (devices : list device)
  : Py.outcome (list (list button)) :=
  match devices with
  | [] => Py.Returns []
  | d :: rest =>
      match device_row current_device d with
      | Py.Returns row =>
          match device_rows current_device rest with
          | Py.Returns rows => Py.Returns (row :: rows)
          | Py.Raises => Py.Raises
          end
      | Py.Raises => Py.Raises
      end
  end.

(** [get_audio_devices_keyboard], given what [get_audio_devices()] and
    [get_default_audio_device()] return: the rows of the keyboard. *)
Definition get_audio_devices_keyboard (devices : list device)
    (current_device : Py.str) : Py.outcome (list (list button)) :=
  match device_rows current_device devices with
  | Py.Returns rows =>
      Py.Returns (rows ++ [[Button back_label (Py.lit "vol_back")]])
  | Py.Raises => Py.Raises
  end.

(** [l[i]] for a list: a negative index counts from the end, and an index
    out of range raises [IndexError]. *)
Definition getitem {A} (l : list A) (i : Z) : Py.outcome A :=
  let j := if i <? 0 then i + Z.of_nat (length l) else i in
  if j <? 0 then Py.Raises
  else match l !! Z.to_nat j with
       | Some x => Py.Returns x
       | None => Py.Raises
       end.

(** What [callback_audio_device] answers the query with. *)
Inductive switch_reply :=
| NoAccess
| Switched (device_id shown : Py.str)
| SwitchFailed (device_id : Py.str)
| NotFound.

Section Handler.

Variable ALLOWED_USER_IDS : list Z.
Variable db : PyText.unicode_data.

(** [set_audio_device]: whether the script run for a device id ends with
    return code 0; [False] also when running it raises. *)
Variable set_audio_device : Py.str -> bool.

(** [callback_audio_device], up to its answer to the query; [devices] is
    what [get_audio_devices()] returns when the query arrives.  It raises
    when [int] or the list access does.  The message edit that follows
    the answer changes nothing of the program's state. *)
Definition callback_audio_device (user_id : Z) (data : Py.str)
    (devices : list device) (a : Volume.audio)
  : Py.outcome (switch_reply * Volume.audio) :=
  if negb (AccessGate.is_authorized ALLOWED_USER_IDS user_id)
  then Py.Returns (NoAccess, a)
  else
    match PyText.int db (PyText.replace (Py.lit "audio_") [] data) with
    | Py.Returns device_index =>
        if device_index <? Z.of_nat (length devices) then
          match getitem devices device_index with
          | Py.Returns device =>
              if set_audio_device (id device) then
                Py.Returns
                  (Switched (id device) (PyText.upto 30 (name device)),
                   {| Volume._cached_volume_level := Volume._cached_volume_level a;
                      Volume._volume_interface := None |})
              else Py.Returns (SwitchFailed (id device), a)
          | Py.Raises => Py.Raises
          end
        else Py.Returns (NotFound, a)
    | Py.Raises => Py.Raises
    end.

End Handler.

(** The entries of a list carry indexes that grow, starting at [i] or
    later. *)
Fixpoint ascending (i : Z) (devices : list device) : Prop :=
  match devices with
  | [] => True
  | d :: rest => i <= index d /\ ascending (index d + 1) rest
  end.

(** The state after a switch: the cached level kept, the handle dropped. *)
Definition handle_dropped (a : Volume.audio) : Volume.audio :=
  {| Volume._cached_volume_level := Volume._cached_volume_level a;
     Volume._volume_interface := None |}.

(** *** Scenarios *)

(** Three endpoints, the middle one of which cannot be opened. *)
Definition three_endpoints : list endpoint :=
  [ Endpoint (Py.lit "{0.0.0}.{a}") (Some (Py.lit "Speakers"));
    Fails;
    Endpoint (Py.lit "{0.0.0}.{c}") (Some (Py.lit "Headphones")) ].

(** Two endpoints that both open, the second one without a name. *)
Definition two_endpoints : list endpoint :=
  [ Endpoint (Py.lit "{0.0.0}.{a}") (Some (Py.lit "Speakers"));
    Endpoint (Py.lit "{0.0.0}.{b}") None ].

End AudioDevices.

(** ** Processes, uptime and progress bars: lines 322-341, 471-504 and
    908-912 of bot.py *)

Module Processes.

(** What [proc.kill()] does. *)
Inductive kill_outcome :=
| Killed
| NoSuchProcess
| AccessDenied.

(** One process as [psutil.process_iter(['name'])] yields it:
    [proc.info['name']], which is [None] when the name cannot be read, and
    what killing it would do. *)
Record process := Process
  { pid : Z;
    info_name : option Py.str;
    kill : kill_outcome }.

(** The test [proc.info['name'] and name.lower() in proc.info['name'].lower()] *)
Definition matches (name : Py.str) (proc : process) : bool :=
  match info_name proc with
  | Some (c :: s) => Py.contains (Py.lower name) (Py.lower (c :: s))
  | Some [] | None => false
  end.

(** The loop of [kill_process_by_name]: the counter [killed], and the
    processes killed so far, by pid. *)
Fixpoint kill_loop (name : Py.str) (procs : list process)
    (killed : Z) (gone : list Z) : Z * list Z :=
  match procs with
  | [] => (killed, gone)
  | proc :: rest =>
      if matches name proc then
        match kill proc with
        | Killed => kill_loop name rest (killed + 1) (gone ++ [pid proc])
        | NoSuchProcess | AccessDenied => kill_loop name rest killed gone
        end
      else kill_loop name rest killed gone
  end.

(** The message of [kill_process_by_name]: the number of processes ended,
    or that none was found. *)
Inductive kill_message :=
| Terminated (killed : Z)
| ProcessNotFound.

(** [kill_process_by_name]: the pair it returns, and the pids of the
    processes it has killed. *)
Definition kill_process_by_name (name : Py.str) (procs : list process)
  : (bool * kill_message) * list Z :=
  let '(killed, gone) := kill_loop name procs 0 [] in
  if 0 <? killed then ((true, Terminated killed), gone)
  else ((false, ProcessNotFound), gone).

(** What [cmd_kill] answers, and what it killed; [None] is the silent
    return for a sender who is not allow-listed. *)
Inductive kill_reply :=
| KillUsage
| KillResult (success : bool) (msg : kill_message).

Definition cmd_kill (ALLOWED_USER_IDS : list Z) (user_id : Z)
    (text : Py.str) (procs : list process) : option kill_reply * list Z :=
  if negb (AccessGate.is_authorized ALLOWED_USER_IDS user_id) then (None, [])
  else
    match PyText.split_maxsplit_1 text with
    | _ :: name :: _ =>
        let '((success, msg), gone) := kill_process_by_name name procs in
        (Some (KillResult success msg), gone)
    | _ => (Some KillUsage, [])
    end.

(** The processes a call with [name] kills. *)
Definition doomed (name : Py.str) (procs : list process) : list process :=
  List.filter
    (fun proc => matches name proc
                 && match kill proc with Killed => true | _ => false end)
    procs.

(** Three processes, one of which refuses to die. *)
Definition three_processes : list process :=
  [ Process 4 (Some (Py.lit "System")) AccessDenied;
    Process 812 (Some (Py.lit "Chrome.exe")) Killed;
    Process 990 (Some (Py.lit "notepad.exe")) Killed ].

End Processes.

Module System.

(** [x / n] for a float [x] and an int [n]. *)
Definition truediv_int (x : PyFloat.float) (n : Z) : PyFloat.float :=
  SFdiv PyFloat.prec PyFloat.emax x (PyFloat.of_int n).

(** [s * n] for a one-character [s]: empty when [n] is not positive. *)
Definition times (c : N) (n : Z) : Py.str := replicate (Z.to_nat n) c.

(** The two cells of a bar: dark shade and light shade. *)
Definition filled_cell : N := 9619.
Definition empty_cell : N := 9617.

(** [get_progress_bar]; it raises when [int] does. *)
Definition get_progress_bar (percent : PyFloat.float) (length : Z)
  : Py.outcome Py.str :=
  match PyFloat.to_int (PyFloat.mul_int (truediv_int percent 100) length) with
  | Py.Returns filled =>
      let empty := length - filled in
      Py.Returns (times filled_cell filled ++ times empty_cell empty)
  | Py.Raises => Py.Raises
  end.

(** A percentage as [psutil] reports it, rounded to one decimal: the
    float nearest to [tenths / 10]. *)
Definition one_decimal (tenths : Z) : PyFloat.float := PyFloat.truediv tenths 10.

(** The units of [get_uptime], with the text put after the number (the
    Russian abbreviations for days, hours, minutes and seconds) and the
    seconds one unit lasts. *)
Inductive unit_of_time := Days | Hours | Minutes | Seconds.

Definition abbreviation (u : unit_of_time) : Py.str :=
  match u with
  | Days => [32; 1076; 1085; 46]
  | Hours => [32; 1095; 46]
  | Minutes => [32; 1084; 1080; 1085; 46]
  | Seconds => [32; 1089; 1077; 1082; 46]
  end%N.

Definition lasts (u : unit_of_time) : Z :=
  match u with
  | Days => 86400
  | Hours => 3600
  | Minutes => 60
  | Seconds => 1
  end.

(** The fields [days] and [seconds] of the [timedelta] between two
    instants given in microseconds. *)
Definition timedelta_days (microseconds : Z) : Z :=
  microseconds / 86400000000.
Definition timedelta_seconds (microseconds : Z) : Z :=
  (microseconds mod 86400000000) / 1000000.

(** The list [parts] of [get_uptime], each part as its number and unit. *)
Definition uptime_parts (now boot_time : Z) : list (Z * unit_of_time) :=
  let uptime := now - boot_time in
  let days := timedelta_days uptime in
  let hours := timedelta_seconds uptime / 3600 in
  let remainder := timedelta_seconds uptime mod 3600 in
  let minutes := remainder / 60 in
  let seconds := remainder mod 60 in
  let parts := [] in
  let parts := if 0 <? days then parts ++ [(days, Days)] else parts in
  let parts := if 0 <? hours then parts ++ [(hours, Hours)] else parts in
  let parts := if 0 <? minutes then parts ++ [(minutes, Minutes)] else parts in
  let parts :=
    if (0 <? seconds) || match parts with [] => true | _ => false end
    then parts ++ [(seconds, Seconds)] else parts in
  parts.

(** [" ".join(parts)] *)
Fixpoint join (sep : Py.str) (parts : list Py.str) : Py.str :=
  match parts with
  | [] => []
  | [p] => p
  | p :: rest => p ++ sep ++ join sep rest
  end.

(** [get_uptime], given [datetime.now()] and the boot time as instants in
    microseconds.  (The numbers have few digits, far from the limit of
    [str].) *)
Definition get_uptime (now boot_time : Z) : Py.str :=
  join (Py.lit " ")
    (map (fun part => PyText.decimal_text (fst part) ++ abbreviation (snd part))
       (uptime_parts now boot_time)).

(** The seconds a list of parts adds up to. *)
Definition total_seconds (parts : list (Z * unit_of_time)) : Z :=
  fold_right (fun part acc => fst part * lasts (snd part) + acc) 0 parts.

End System.

(** ** Mute: lines 129-157 of bot.py *)

Module Mute.

(** The mute side of the endpoint: the flag it holds, and whether
    [GetMute] and [SetMute] succeed. *)
Record endpoint := Endpoint
  { muted : bool;
    GetMute_ok : bool;
    SetMute_ok : bool }.

Section Keys.

(** What running the script that sends the mute key (character 173) does
    to the endpoint; the identity when the script cannot be run. *)
Variable send_mute_key : endpoint -> endpoint.

(** [toggle_mute] *)
Definition toggle_mute (a : Volume.audio) (p : Volume.platform)
    (m : endpoint) : (Volume.audio * endpoint) * bool :=
  let '(a, volume) := Volume._get_volume_interface a p in
  let fallback := ((a, send_mute_key m), true) in
  match volume with
  | Some _ =>
      if GetMute_ok m then
        let current_mute := muted m in
        if SetMute_ok m then
          ((a, {| muted := negb current_mute;
                  GetMute_ok := GetMute_ok m;
                  SetMute_ok := SetMute_ok m |}),
           negb current_mute)
        else fallback
      else fallback
  | None => fallback
  end.

End Keys.

(** [is_muted] *)
Definition is_muted (a : Volume.audio) (p : Volume.platform) (m : endpoint)
  : Volume.audio * bool :=
  let '(a, volume) := Volume._get_volume_interface a p in
  match volume with
  | Some _ => if GetMute_ok m then (a, muted m) else (a, false)
  | None => (a, false)
  end.

(** The handle can be had and both calls on it succeed. *)
Definition responsive (a : Volume.audio) (p : Volume.platform)
    (m : endpoint) : bool :=
  match snd (Volume._get_volume_interface a p) with
  | Some _ => GetMute_ok m && SetMute_ok m
  | None => false
  end.

End Mute.

(** ** Brightness: lines 372-390 and 1202-1231 of bot.py *)

Module Brightness.

(** What [sbc.get_brightness()] returns: a number, or a list of numbers,
    one for each display. *)
Inductive reading :=
| Single (brightness : Z)
| Several (brightness : list Z).

(** [get_brightness], given what the import and the call do. *)
Definition get_brightness (r : Py.outcome reading) : Z :=
  match r with
  | Py.Returns (Single brightness) => brightness
  | Py.Returns (Several (first :: _)) => first
  | Py.Returns (Several []) | Py.Raises => -1
  end.

(** The driver as [set_brightness] meets it: whether the import succeeds,
    whether [sbc.set_brightness] raises, and the levels it has been
    handed so far. *)
Record driver := Driver
  { import_ok : bool;
    set_ok : bool;
    handed : list Z }.

(** [set_brightness] *)
Definition set_brightness (level : Z) (d : driver) : driver * bool :=
  if import_ok d then
    let level := Z.max 0 (Z.min 100 level) in
    ({| import_ok := import_ok d;
        set_ok := set_ok d;
        handed := handed d ++ [level] |}, set_ok d)
  else (d, false).

(** The text [callback_brightness] puts in the message: the level, or
    that none is available. *)
Inductive brightness_text :=
| Current (brightness : Z)
| NotAvailable.

Section Handler.

Variable ALLOWED_USER_IDS : list Z.
Variable db : PyText.unicode_data.

(** [callback_brightness]; [before] and [after] are what reading the
    brightness gives when the handler starts and after it has acted.
    [None] stands for the answer that access is denied. *)
Definition callback_brightness (user_id : Z) (data : Py.str)
    (before after : Py.outcome reading) (d : driver)
  : Py.outcome (option brightness_text * driver) :=
  if negb (AccessGate.is_authorized ALLOWED_USER_IDS user_id)
  then Py.Returns (None, d)
  else
    let action := PyText.replace (Py.lit "br_") [] data in
    let current := get_brightness before in
    let acted :=
      if bool_decide (action = Py.lit "refresh") then Py.Returns d
      else if bool_decide (action = Py.lit "minus20")
      then Py.Returns (fst (set_brightness (current - 20) d))
      else if bool_decide (action = Py.lit "plus20")
      then Py.Returns (fst (set_brightness (current + 20) d))
      else if bool_decide
                (action ∈ [Py.lit "25"; Py.lit "50"; Py.lit "75"; Py.lit "100"])
      then match PyText.int db action with
           | Py.Returns level => Py.Returns (fst (set_brightness level d))
           | Py.Raises => Py.Raises
           end
      else Py.Returns d in
    match acted with
    | Py.Returns d =>
        let new_brightness := get_brightness after in
        let text :=
          if 0 <=? new_brightness then Current new_brightness
          else NotAvailable in
        Py.Returns (Some text, d)
    | Py.Raises => Py.Raises
    end.

End Handler.

(** A driver that answers, with nothing handed to it yet. *)
Definition fresh : driver :=
  {| import_ok := true; set_ok := true; handed := [] |}.

End Brightness.
(** * Properties *)

(** ** The access gate *)

Module AccessGateFacts.
Import AccessGate.

Section Gate.

Variable ALLOWED_USER_IDS : list Z.

Local Abbreviation is_authorized := (is_authorized ALLOWED_USER_IDS).
Local Abbreviation feed := (feed ALLOWED_USER_IDS).
Local Abbreviation run := (run ALLOWED_USER_IDS).

Lemma filter_snoc_id {A} (f : A -> Z) (user_id : Z) (l : list A) (x : A) :
  filter (fun y => f y = user_id) (l ++ [x])
  = filter (fun y => f y = user_id) l
    ++ (if decide (f x = user_id) then [x] else []).
Proof.
  rewrite filter_app, filter_cons, filter_nil. by destruct (decide _).
Qed.

(** *** What each state change does to the views of one user *)

Lemma attempts_log user_id other uname g :
  attempts (log_unauthorized_attempt user_id uname g) other
  = if decide (user_id = other) then attempts g user_id + 1
    else attempts g other.
Proof.
  unfold attempts, log_unauthorized_attempt; cbn [_unauthorized_attempts].
  destruct (decide (user_id = other)) as [<-|Hne].
  - by rewrite lookup_insert_eq.
  - by rewrite lookup_insert_ne.
Qed.

Lemma printed_about_log user_id other uname g :
  printed_about other (log_unauthorized_attempt user_id uname g)
  = printed_about other g
    ++ (if (attempts g user_id + 1 <=? _MAX_ATTEMPTS) && bool_decide (user_id = other)
        then [Diagnostic user_id uname (attempts g user_id + 1)]
        else []).
Proof.
  unfold printed_about, log_unauthorized_attempt; cbn [printed].
  destruct (_ <=? _); cbn [andb].
  - rewrite (filter_snoc_id diag_id); cbn [diag_id].
    by destruct (decide (user_id = other));
      [rewrite bool_decide_eq_true_2|rewrite bool_decide_eq_false_2].
  - by rewrite app_nil_r.
Qed.

Lemma handled_from_call user_id ev g :
  handled_from user_id (call_handler ev g)
  = handled_from user_id g
    ++ (if decide (id (from_user ev) = user_id) then [ev] else []).
Proof.
  unfold handled_from, call_handler; cbn [handled].
  apply (filter_snoc_id (fun ev => id (from_user ev))).
Qed.

Lemma run_snoc evs ev g :
  run (evs ++ [ev]) g = fst (feed ev (run evs g)).
Proof. unfold AccessGate.run. by rewrite fold_left_app. Qed.

Lemma run_cons evs ev g :
  run (ev :: evs) g = run evs (fst (feed ev g)).
Proof. done. Qed.

Lemma sent_by_snoc user_id evs ev :
  sent_by user_id (evs ++ [ev])
  = sent_by user_id evs
    + (if decide (id (from_user ev) = user_id) then 1 else 0).
Proof.
  unfold sent_by.
  rewrite (filter_snoc_id (fun ev => id (from_user ev))), length_app.
  destruct (decide _); simpl; lia.
Qed.

Lemma sent_by_nonneg user_id evs : 0 <= sent_by user_id evs.
Proof. unfold sent_by. lia. Qed.

(** *** One event *)

(** The three ways an event can go. *)
Lemma feed_cases ev g :
  let user_id := id (from_user ev) in
  (is_blocked g user_id = true /\ feed ev g = (g, Drop))
  \/ (is_blocked g user_id = false /\ is_authorized user_id = false
      /\ exists g', feed ev g
                    = (g', match kind ev with Message => Drop | CallbackQuery => Alert end)
         /\ attempts g' = attempts (log_unauthorized_attempt user_id (username (from_user ev)) g)
         /\ printed g' = printed (log_unauthorized_attempt user_id (username (from_user ev)) g)
         /\ handled g' = handled g)
  \/ (is_blocked g user_id = false /\ is_authorized user_id = true
      /\ feed ev g = (call_handler ev g, Admit)).
Proof.
  intros user_id.
  unfold AccessGate.feed, auth_middleware, auth_callback_middleware.
  fold user_id.
  destruct (is_blocked g user_id) eqn:Hb.
  - left. by destruct (kind ev).
  - destruct (is_authorized user_id) eqn:Ha; cbn [negb].
    + right; right. by destruct (kind ev).
    + right; left. do 2 (split; [done|]).
      destruct (kind ev); eexists; (split; [reflexivity|]); done.
Qed.

(** An event of a blocked user changes nothing at all. *)
Lemma feed_blocked ev g :
  is_blocked g (id (from_user ev)) = true -> feed ev g = (g, Drop).
Proof.
  intros Hb. destruct (feed_cases ev g) as [[_ H]|[[H _]|[H _]]]; [done|..];
    cbv zeta in H; congruence.
Qed.

(** An event of a user who is neither allowed nor blocked yet. *)
Lemma feed_unauthorized ev g :
  is_authorized (id (from_user ev)) = false ->
  is_blocked g (id (from_user ev)) = false ->
  attempts (fst (feed ev g)) (id (from_user ev))
  = attempts g (id (from_user ev)) + 1
  /\ printed_about (id (from_user ev)) (fst (feed ev g))
     = printed_about (id (from_user ev)) g
       ++ (if attempts g (id (from_user ev)) + 1 <=? _MAX_ATTEMPTS
           then [Diagnostic (id (from_user ev)) (username (from_user ev))
                   (attempts g (id (from_user ev)) + 1)]
           else [])
  /\ handled (fst (feed ev g)) = handled g
  /\ snd (feed ev g) ≠ Admit.
Proof.
  intros Ha Hb.
  destruct (feed_cases ev g) as [[H _]|[(_ & _ & g' & -> & Hat & Hp & Hh)|(_ & H & _)]];
    cbv zeta in *; try congruence.
  cbn [fst snd]. rewrite Hat, attempts_log, decide_True by done.
  split; [done|]. split; [|split; [done|by destruct (kind ev)]].
  unfold printed_about at 1. rewrite Hp.
  fold (printed_about (id (from_user ev))
          (log_unauthorized_attempt (id (from_user ev)) (username (from_user ev)) g)).
  rewrite printed_about_log, bool_decide_eq_true_2, andb_true_r by done.
  done.
Qed.

(** An event of another user leaves everything about [user_id] alone. *)
Lemma feed_other user_id ev g :
  id (from_user ev) ≠ user_id ->
  attempts (fst (feed ev g)) user_id = attempts g user_id
  /\ printed_about user_id (fst (feed ev g)) = printed_about user_id g
  /\ handled_from user_id (fst (feed ev g)) = handled_from user_id g.
Proof.
  intros Hne.
  destruct (feed_cases ev g) as [[_ ->]|[(_ & _ & g' & -> & Hat & Hp & Hh)|(_ & _ & ->)]];
    cbn [fst]; [done| |].
  - rewrite Hat, attempts_log, decide_False by done. split; [done|].
    unfold printed_about at 1, handled_from at 1. rewrite Hp, Hh.
    fold (printed_about user_id
            (log_unauthorized_attempt (id (from_user ev)) (username (from_user ev)) g)).
    rewrite printed_about_log, bool_decide_eq_false_2, andb_false_r, app_nil_r by done.
    done.
  - rewrite handled_from_call, decide_False, app_nil_r by done. done.
Qed.

(** The counter of a user never decreases. *)
Lemma feed_attempts_mono user_id ev g :
  attempts g user_id <= attempts (fst (feed ev g)) user_id.
Proof.
  destruct (decide (id (from_user ev) = user_id)) as [<-|Hne].
  - destruct (feed_cases ev g) as [[_ ->]|[(Hb & Ha & _)|(_ & _ & ->)]];
      cbn [fst]; [lia| |unfold attempts; simpl; lia].
    destruct (feed_unauthorized ev g Ha Hb) as (-> & _). lia.
  - destruct (feed_other user_id ev g Hne) as (-> & _). lia.
Qed.

Lemma is_blocked_spec g user_id :
  is_blocked g user_id = true <-> _MAX_ATTEMPTS < attempts g user_id.
Proof. unfold is_blocked. apply Z.ltb_lt. Qed.

Lemma is_blocked_false g user_id :
  is_blocked g user_id = false <-> attempts g user_id <= _MAX_ATTEMPTS.
Proof. unfold is_blocked. apply Z.ltb_ge. Qed.

Lemma feed_blocked_stays user_id ev g :
  is_blocked g user_id = true -> is_blocked (fst (feed ev g)) user_id = true.
Proof.
  rewrite !is_blocked_spec. pose proof (feed_attempts_mono user_id ev g). lia.
Qed.

(** One event never brings an event of a refused user to a handler. *)
Lemma feed_refused user_id ev g :
  is_authorized user_id = false \/ is_blocked g user_id = true ->
  handled_from user_id (fst (feed ev g)) = handled_from user_id g.
Proof.
  intros Hr.
  destruct (decide (id (from_user ev) = user_id)) as [<-|Hne].
  - destruct (is_blocked g (id (from_user ev))) eqn:Hb.
    + by rewrite feed_blocked.
    + destruct Hr as [Ha|]; [|done].
      destruct (feed_unauthorized ev g Ha Hb) as (_ & _ & Hh & _).
      unfold handled_from. by rewrite Hh.
  - by destruct (feed_other user_id ev g Hne) as (_ & _ & ->).
Qed.

(** C1.  An operator id that is not on the allow-list, or that the
    attempts counter marks as blocked, never has one of its events
    passed to a handler, whatever sequence of messages and callback
    queries (its own and other operators') is processed: the events of
    that id that reached a handler are the same before and after, and
    there are none when the process starts from its initial state. *)
Theorem unauthorized_never_handled user_id evs g :
  is_authorized user_id = false \/ is_blocked g user_id = true ->
  handled_from user_id (run evs g) = handled_from user_id g
  /\ (g = startup -> handled_from user_id (run evs g) = []).
Proof.
  intros Hr.
  assert (handled_from user_id (run evs g) = handled_from user_id g) as E.
  { revert g Hr. induction evs as [|ev evs IH]; intros g Hr; [done|].
    rewrite run_cons, IH.
    - by apply feed_refused.
    - destruct Hr as [Ha|Hb]; [by left|right]. by apply feed_blocked_stays. }
  split; [done|]. intros ->. by rewrite E.
Qed.

(** Only events of allow-listed users reach a handler. *)
Lemma handled_are_authorized evs ev :
  ev ∈ handled (run evs startup) -> is_authorized (id (from_user ev)) = true.
Proof.
  induction evs as [|e evs IH] using rev_ind.
  - cbn. by intros ?%elem_of_nil.
  - rewrite run_snoc.
    destruct (feed_cases e (run evs startup))
      as [[_ ->]|[(_ & _ & g' & -> & _ & _ & Hh)|(_ & Ha & ->)]];
      cbn [fst]; [done|by rewrite Hh|].
    unfold call_handler; cbn [handled].
    rewrite elem_of_app, list_elem_of_singleton. intros [?| ->]; by auto.
Qed.

Lemma seq_snoc_Z (k : nat) :
  map Z.of_nat (seq 1 (S k)) = map Z.of_nat (seq 1 k) ++ [Z.of_nat k + 1].
Proof.
  rewrite seq_S, map_app. cbn [map]. do 2 f_equal. lia.
Qed.

(** The counter and the diagnostics of a user who is not allowed, after
    any sequence of events from the initial state. *)
Lemma unauthorized_progress user_id evs :
  is_authorized user_id = false ->
  attempts (run evs startup) user_id
  = Z.min (sent_by user_id evs) (_MAX_ATTEMPTS + 1)
  /\ map diag_attempt (printed_about user_id (run evs startup))
     = map Z.of_nat
         (seq 1 (Z.to_nat (Z.min (sent_by user_id evs) _MAX_ATTEMPTS))).
Proof.
  intros Ha. unfold _MAX_ATTEMPTS.
  induction evs as [|ev evs [IHa IHp]] using rev_ind; [done|].
  pose proof (sent_by_nonneg user_id evs) as Hn.
  rewrite run_snoc, sent_by_snoc.
  destruct (decide (id (from_user ev) = user_id)) as [Heq|Hne].
  - subst user_id.
    destruct (is_blocked (run evs startup) (id (from_user ev))) eqn:Hb.
    + rewrite feed_blocked by done. cbn [fst].
      apply is_blocked_spec in Hb. unfold _MAX_ATTEMPTS in Hb.
      rewrite IHa, IHp. split; [lia|]. do 3 f_equal. lia.
    + destruct (feed_unauthorized ev _ Ha Hb) as (-> & -> & _).
      apply is_blocked_false in Hb. unfold _MAX_ATTEMPTS in *.
      rewrite IHa in *. split; [lia|].
      rewrite map_app, IHp.
      assert (sent_by (id (from_user ev)) evs <= 5) as Hle by lia.
      rewrite !Z.min_l by lia.
      destruct (Z.leb_spec (sent_by (id (from_user ev)) evs + 1) 5) as [H5|H5].
      * rewrite Z.min_l by lia.
        replace (Z.to_nat (sent_by (id (from_user ev)) evs + 1))
          with (S (Z.to_nat (sent_by (id (from_user ev)) evs))) by lia.
        rewrite seq_snoc_Z. cbn [map diag_attempt]. do 2 f_equal. lia.
      * rewrite Z.min_r by lia. cbn [map]. rewrite app_nil_r.
        do 3 f_equal. lia.
  - destruct (feed_other user_id ev (run evs startup) Hne) as (-> & -> & _).
    rewrite Z.add_0_r. done.
Qed.

(** C2.  For an operator id that is not on the allow-list, after any
    sequence of events from process start of which [n] come from that
    id: the counter is [min n (MAX_ATTEMPTS + 1)]; the diagnostics
    printed about the id are exactly those of attempts 1 to
    [min n MAX_ATTEMPTS], in order; the id is blocked exactly when its
    counter exceeds [MAX_ATTEMPTS], that is exactly when [n] has reached
    [MAX_ATTEMPTS + 1]; while it is not blocked an event of it adds one to
    the counter, is not admitted, and prints a diagnostic exactly when
    the new count is at most [MAX_ATTEMPTS]; once it is blocked an event
    of it is dropped and changes nothing, so prints nothing. *)
Theorem lockout_after_max_attempts user_id evs :
  is_authorized user_id = false ->
  let g := run evs startup in
  let n := sent_by user_id evs in
  _MAX_ATTEMPTS = 5
  /\ attempts g user_id = Z.min n (_MAX_ATTEMPTS + 1)
  /\ map diag_attempt (printed_about user_id g)
     = map Z.of_nat (seq 1 (Z.to_nat (Z.min n _MAX_ATTEMPTS)))
  /\ (is_blocked g user_id = true <-> _MAX_ATTEMPTS < attempts g user_id)
  /\ (is_blocked g user_id = true <-> _MAX_ATTEMPTS + 1 <= n)
  /\ (forall ev, id (from_user ev) = user_id ->
        is_blocked g user_id = false ->
        attempts (fst (feed ev g)) user_id = attempts g user_id + 1
        /\ snd (feed ev g) ≠ Admit
        /\ printed_about user_id (fst (feed ev g))
           = printed_about user_id g
             ++ (if attempts g user_id + 1 <=? _MAX_ATTEMPTS
                 then [Diagnostic user_id (username (from_user ev))
                         (attempts g user_id + 1)]
                 else []))
  /\ (forall ev, id (from_user ev) = user_id ->
        is_blocked g user_id = true -> feed ev g = (g, Drop)).
Proof.
  intros Ha g n.
  destruct (unauthorized_progress user_id evs Ha) as [Hat Hp].
  fold g n in Hat, Hp.
  pose proof (sent_by_nonneg user_id evs) as Hn. fold n in Hn.
  split; [done|]. split; [done|]. split; [done|].
  split; [apply is_blocked_spec|].
  split; [rewrite is_blocked_spec, Hat; unfold _MAX_ATTEMPTS; lia|].
  split.
  - intros ev <- Hb.
    destruct (feed_unauthorized ev g Ha Hb) as (H1 & H2 & _ & H4). done.
  - intros ev <- Hb. by apply feed_blocked.
Qed.

(** One event keeps every counter at or below [MAX_ATTEMPTS + 1]. *)
Lemma feed_bounded ev g :
  (forall user_id, attempts g user_id <= _MAX_ATTEMPTS + 1) ->
  forall user_id, attempts (fst (feed ev g)) user_id <= _MAX_ATTEMPTS + 1.
Proof.
  intros Hinv user_id.
  destruct (feed_cases ev g)
    as [[_ ->]|[(Hb & _ & g' & -> & Hat & _)|(_ & _ & ->)]]; cbn [fst].
  - apply Hinv.
  - rewrite Hat, attempts_log. apply is_blocked_false in Hb.
    destruct (decide _); [lia|apply Hinv].
  - apply Hinv.
Qed.

(** C10.  From process start and after any sequence of events, the
    counter of every operator id is at most [MAX_ATTEMPTS + 1], that is
    6; and an event of an id that is blocked leaves the whole state, the
    counter included, as it was, because the blocked test comes first. *)
Theorem attempts_never_exceed_bound evs user_id :
  attempts (run evs startup) user_id <= _MAX_ATTEMPTS + 1
  /\ _MAX_ATTEMPTS + 1 = 6
  /\ (forall ev, is_blocked (run evs startup) (id (from_user ev)) = true ->
        fst (feed ev (run evs startup)) = run evs startup).
Proof.
  split; [|split; [done|]].
  - revert user_id. induction evs as [|ev evs IH] using rev_ind.
    + intros user_id. cbn. unfold attempts; cbn. by rewrite lookup_empty.
    + intros user_id. rewrite run_snoc. by apply feed_bounded.
  - intros ev Hb. by rewrite feed_blocked.
Qed.

End Gate.

Lemma unauthorized_never_handled_witness :
  (is_authorized [1001] 666 = false \/ is_blocked startup 666 = true)
  /\ handled_from 666 (run [1001] probing startup) = handled_from 666 startup.
Proof.
  split; [left; reflexivity|].
  destruct (unauthorized_never_handled [1001] 666 probing startup
              (or_introl eq_refl)) as [H _].
  exact H.
Defined.

Lemma lockout_after_max_attempts_witness :
  is_authorized [1001] 666 = false
  /\ attempts (run [1001] probing startup) 666
     = Z.min (sent_by 666 probing) (_MAX_ATTEMPTS + 1).
Proof.
  split; [reflexivity|].
  destruct (lockout_after_max_attempts [1001] 666 probing eq_refl)
    as (_ & H & _).
  exact H.
Defined.

(** The probe above, run: eight attempts leave the counter at 6, five
    diagnostics, and only the owner's two events handled. *)
Example probing_run :
  attempts (run [1001] probing startup) 666 = 6
  /\ map diag_attempt (printed (run [1001] probing startup)) = [1; 2; 3; 4; 5]
  /\ handled (run [1001] probing startup) = [owner Message; owner CallbackQuery]
  /\ alerts (run [1001] probing startup) = [666; 666].
Proof. vm_compute. done. Qed.

End AccessGateFacts.

(** ** The safety filter *)

Module SafetyFilterFacts.
Import SafetyFilter.

Lemma startswith_spec p s :
  Py.startswith p s = true <-> exists post, s = p ++ post.
Proof.
  revert s. induction p as [|a p IH]; intros s.
  - split; [by exists s|done].
  - destruct s as [|b s]; cbn [Py.startswith].
    + split; [done|]. by intros [post ?].
    + rewrite andb_true_iff, N.eqb_eq, IH. split.
      * intros [-> [post ->]]. by exists post.
      * intros [post [= -> ->]]. eauto.
Qed.

Lemma contains_spec p s :
  Py.contains p s = true <-> exists pre post, s = pre ++ p ++ post.
Proof.
  induction s as [|b s IH]; cbn [Py.contains];
    rewrite orb_true_iff, startswith_spec.
  - split.
    + intros [[post ->]|?]; [|done]. by exists [], post.
    + intros (pre & post & H). left.
      symmetry in H. apply app_eq_nil in H as [-> H].
      exists post. by rewrite H.
  - rewrite IH. split.
    + intros [[post ->]|(pre & post & ->)].
      * by exists [], post.
      * by exists (b :: pre), post.
    + intros ([|c pre] & post & H).
      * left. by exists post.
      * right. injection H as -> ->. by exists pre, post.
Qed.

Lemma lower_app a b : Py.lower (a ++ b) = Py.lower a ++ Py.lower b.
Proof. apply flat_map_app. Qed.

Lemma is_dangerous_spec command :
  is_dangerous command = true
  <-> exists p pre post,
        p ∈ dangerous_patterns /\ Py.lower command = pre ++ p ++ post.
Proof.
  unfold is_dangerous. rewrite existsb_exists. split.
  - intros (p & Hin & (pre & post & H)%contains_spec).
    exists p, pre, post. by rewrite list_elem_of_In.
  - intros (p & pre & post & Hin & H).
    exists p. rewrite <- list_elem_of_In, contains_spec. eauto.
Qed.

(** C3.  The shell-command classifier denies a command exactly when the
    lower-cased command contains one of the six fixed patterns as a
    substring.  Hence the verdict depends on the command only through its
    lower-cased text (two commands that differ in case get the same
    verdict), and a pattern written in any case and placed anywhere in a
    command gets it denied.  "FORMAT C:" and "echo hi && format d:" are
    denied, "dir" is allowed. *)
Theorem shell_classifier_denies_patterns :
  (forall command,
      is_dangerous command = true
      <-> exists p pre post,
            p ∈ dangerous_patterns /\ Py.lower command = pre ++ p ++ post)
  /\ dangerous_patterns
     = [ Py.lit "format"; Py.lit "del /s"; Py.lit "rd /s"; Py.lit "rmdir /s";
         Py.lit ":(){:|"; Py.lit "rm -rf" ]
  /\ (forall command other,
        Py.lower other = Py.lower command ->
        is_dangerous other = is_dangerous command)
  /\ (forall p spelled pre post,
        p ∈ dangerous_patterns -> Py.lower spelled = p ->
        is_dangerous (pre ++ spelled ++ post) = true)
  /\ is_dangerous (Py.lit "FORMAT C:") = true
  /\ is_dangerous (Py.lit "echo hi && format d:") = true
  /\ is_dangerous (Py.lit "dir") = false.
Proof.
  split; [apply is_dangerous_spec|]. split; [done|].
  split; [|split; [|by vm_compute]].
  - intros command other H. unfold is_dangerous. by rewrite H.
  - intros p spelled pre post Hin <-. apply is_dangerous_spec.
    exists (Py.lower spelled), (Py.lower pre), (Py.lower post).
    by rewrite !lower_app.
Qed.

(** [cmd_execute] hands a command to the shell only when the operator is
    allowed and the classifier lets the command through. *)
Lemma cmd_execute_runs_only_safe allowed user_id args command :
  cmd_execute allowed user_id args = Some (Ran command) ->
  AccessGate.is_authorized allowed user_id = true
  /\ is_dangerous command = false.
Proof.
  unfold cmd_execute.
  destruct (AccessGate.is_authorized allowed user_id); [|done].
  destruct args as [|name [|arg rest]]; try done. cbn [negb].
  destruct (is_dangerous arg) eqn:E; [done|]. by intros [= <-].
Qed.

(** *** The suffix of a plain file name *)

Lemma replace_absent a b s :
  Forall (fun c => c ≠ a) s -> Py.replace a b s = s.
Proof.
  unfold Py.replace. induction 1 as [|c s Hc _ IH]; [done|].
  cbn [map]. rewrite IH. by rewrite (proj2 (N.eqb_neq c a)).
Qed.

Lemma split_absent c s :
  Forall (fun x => x ≠ c) s -> Py.split c s = [s].
Proof.
  induction 1 as [|x s Hx _ IH]; [done|].
  cbn [Py.split]. rewrite IH. by rewrite (proj2 (N.eqb_neq x c)).
Qed.

Lemma splitroot_rel_plain p : Path.plain p -> Path.splitroot_rel p = p.
Proof.
  unfold Path.plain, Path.splitroot_rel.
  destruct p as [|c0 [|c1 p2]]; [done|..].
  - intros [(H0 & _) _]%Forall_cons_1.
    by rewrite (proj2 (N.eqb_neq c0 Path.sep)).
  - intros [(H0 & _) [(_ & _ & H1) _]%Forall_cons_1]%Forall_cons_1.
    rewrite (proj2 (N.eqb_neq c0 Path.sep)) by done.
    by rewrite (proj2 (N.eqb_neq c1 Path.colon)).
Qed.

(** A plain name other than [''] and ['.'] is its own final component. *)
Lemma name_plain p :
  Path.plain p -> p ≠ [] -> p ≠ [Path.dot] -> Path.name p = p.
Proof.
  intros Hp Hn Hd. unfold Path.name, Path.tail.
  rewrite replace_absent, splitroot_rel_plain, split_absent; [|try done..].
  - rewrite filter_cons, filter_nil. by rewrite decide_True.
  - eapply Forall_impl; [exact Hp|]. by intros c (? & _).
  - eapply Forall_impl; [exact Hp|]. by intros c (_ & ? & _).
Qed.

Lemma lstrip_app c base rest :
  Py.lstrip c base ≠ [] -> Py.lstrip c (base ++ rest) = Py.lstrip c base ++ rest.
Proof.
  induction base as [|x base IH]; [done|].
  cbn [Py.lstrip app]. by destruct (N.eqb x c).
Qed.

Lemma from_last_absent c s : c ∉ s -> Py.from_last c s = None.
Proof.
  induction s as [|x s IH]; [done|].
  intros [Hx Hs]%not_elem_of_cons. cbn [Py.from_last].
  rewrite IH by done. by rewrite (proj2 (N.eqb_neq x c)).
Qed.

Lemma from_last_app c base ext :
  c ∉ ext -> Py.from_last c (base ++ c :: ext) = Some (c :: ext).
Proof.
  intros Hc. induction base as [|x base IH].
  - cbn [app Py.from_last]. by rewrite from_last_absent, N.eqb_refl.
  - cbn [app Py.from_last]. by rewrite IH.
Qed.

(** The suffix of a plain name is the text from its last dot on, when a
    character other than a dot comes before that dot. *)
Lemma suffix_plain base ext :
  Path.plain base -> Path.plain ext -> Path.dot ∉ ext ->
  Py.lstrip Path.dot base ≠ [] ->
  Path.suffix (base ++ Path.dot :: ext) = Path.dot :: ext.
Proof.
  intros Hb He Hd Hs. unfold Path.suffix.
  rewrite name_plain.
  - by rewrite lstrip_app, from_last_app.
  - apply Forall_app. split; [done|]. by apply Forall_cons.
  - by destruct base.
  - by destruct base as [|x [|y base]].
Qed.

(** So a plain name that ends in a blocked extension, in whatever case it
    is spelled, is denied. *)
Lemma blocked_extension_denied base ext :
  Path.plain base -> Path.plain ext -> Path.dot ∉ ext ->
  Py.lstrip Path.dot base ≠ [] ->
  Py.lower (Path.dot :: ext) ∈ BLOCKED_EXTENSIONS ->
  is_file_allowed (base ++ Path.dot :: ext) = false.
Proof.
  intros Hb He Hd Hs Hin. unfold is_file_allowed.
  destruct (base ++ Path.dot :: ext) eqn:E; [by destruct base|].
  rewrite <- E, suffix_plain by done.
  by rewrite bool_decide_eq_true_2.
Qed.

Lemma blocked_extensions_list ext :
  ext ∈ BLOCKED_EXTENSIONS
  <-> ext ∈ [ Py.lit ".exe"; Py.lit ".bat"; Py.lit ".cmd"; Py.lit ".com";
              Py.lit ".scr"; Py.lit ".pif"; Py.lit ".msi"; Py.lit ".msp";
              Py.lit ".vbs"; Py.lit ".vbe"; Py.lit ".js"; Py.lit ".jse";
              Py.lit ".ws"; Py.lit ".wsf"; Py.lit ".wsc"; Py.lit ".wsh";
              Py.lit ".ps1"; Py.lit ".psm1"; Py.lit ".psd1"; Py.lit ".reg";
              Py.lit ".lnk"; Py.lit ".dll"; Py.lit ".sys"; Py.lit ".jar" ].
Proof. unfold BLOCKED_EXTENSIONS. by rewrite elem_of_list_to_set. Qed.

Lemma is_file_allowed_spec filename :
  is_file_allowed filename = false
  <-> filename ≠ [] /\ Py.lower (Path.suffix filename) ∈ BLOCKED_EXTENSIONS.
Proof.
  unfold is_file_allowed. destruct filename as [|c s].
  - split; [done|]. by intros [? _].
  - rewrite negb_false_iff, bool_decide_eq_true. split; [done|]. by intros [_ ?].
Qed.

(** C4.  The file classifier denies a filename exactly when the filename
    is not empty and the lower-cased suffix of its final path component is
    one of the 24 blocked extensions; nothing but the filename enters the
    decision.  A filename without a suffix is allowed, and so is the empty
    filename.  "payload.EXE", "script.VBS" and "lib.DLL" are denied;
    "notes.txt", "image.png" and the suffix-less "README" are allowed. *)
Theorem file_classifier_denies_blocked_suffix :
  (forall filename,
      is_file_allowed filename = false
      <-> filename ≠ [] /\ Py.lower (Path.suffix filename) ∈ BLOCKED_EXTENSIONS)
  /\ (forall ext,
        ext ∈ BLOCKED_EXTENSIONS
        <-> ext ∈ [ Py.lit ".exe"; Py.lit ".bat"; Py.lit ".cmd"; Py.lit ".com";
                    Py.lit ".scr"; Py.lit ".pif"; Py.lit ".msi"; Py.lit ".msp";
                    Py.lit ".vbs"; Py.lit ".vbe"; Py.lit ".js"; Py.lit ".jse";
                    Py.lit ".ws"; Py.lit ".wsf"; Py.lit ".wsc"; Py.lit ".wsh";
                    Py.lit ".ps1"; Py.lit ".psm1"; Py.lit ".psd1"; Py.lit ".reg";
                    Py.lit ".lnk"; Py.lit ".dll"; Py.lit ".sys"; Py.lit ".jar" ])
  /\ (forall filename other,
        filename ≠ [] -> other ≠ [] ->
        Py.lower (Path.suffix other) = Py.lower (Path.suffix filename) ->
        is_file_allowed other = is_file_allowed filename)
  /\ (forall filename, Path.suffix filename = [] -> is_file_allowed filename = true)
  /\ is_file_allowed (Py.lit "") = true
  /\ is_file_allowed (Py.lit "payload.EXE") = false
  /\ is_file_allowed (Py.lit "script.VBS") = false
  /\ is_file_allowed (Py.lit "lib.DLL") = false
  /\ is_file_allowed (Py.lit "notes.txt") = true
  /\ is_file_allowed (Py.lit "image.png") = true
  /\ is_file_allowed (Py.lit "README") = true.
Proof.
  split; [apply is_file_allowed_spec|].
  split; [apply blocked_extensions_list|].
  split; [|split; [|by vm_compute]].
  - intros [|c s] [|d t] ? ? H; try done.
    unfold is_file_allowed. by rewrite H.
  - intros filename H. unfold is_file_allowed.
    destruct filename; [done|]. rewrite H. by vm_compute.
Qed.

End SafetyFilterFacts.

(** ** File uploads *)

Module UploadsFacts.
Import Uploads.

Section Handlers.

Variable ALLOWED_USER_IDS : list Z.

Local Abbreviation handle_document := (handle_document ALLOWED_USER_IDS).
Local Abbreviation handle_video := (handle_video ALLOWED_USER_IDS).
Local Abbreviation handle_audio := (handle_audio ALLOWED_USER_IDS).

(** The document handler consults the classifier first: a denied name
    leaves the host untouched, whatever the transport would deliver. *)
Lemma document_denied_not_written user_id file_name e h :
  SafetyFilter.is_file_allowed (offered_name (Document file_name) e) = false ->
  fst (handle_document user_id file_name e h) = h.
Proof.
  intros Hd. unfold Uploads.handle_document. cbn [offered_name] in Hd.
  destruct (AccessGate.is_authorized _ _); cbn [negb]; [|done].
  by rewrite Hd.
Qed.

(** The document handler keeps a file that is already there: the new
    content goes under the name with the time inserted. *)
Lemma document_collision_keeps_existing user_id file_name e h data :
  let filename := offered_name (Document file_name) e in
  let renamed :=
    Path.stem filename ++ Py.lit "_" ++ now_time e ++ Path.suffix filename in
  AccessGate.is_authorized ALLOWED_USER_IDS user_id = true ->
  SafetyFilter.is_file_allowed filename = true ->
  get_file e = Py.Returns tt ->
  download_file e = Py.Returns data ->
  exists_ filename h = true ->
  renamed ≠ filename ->
  downloads (fst (handle_document user_id file_name e h)) !! filename
  = downloads h !! filename
  /\ downloads (fst (handle_document user_id file_name e h)) !! renamed
     = Some data.
Proof.
  intros filename renamed Ha Hf Hg Hd Hx Hne.
  unfold Uploads.handle_document.
  fold (offered_name (Document file_name) e). fold filename.
  rewrite Ha, Hf, Hg, Hd, Hx. cbn [negb fst write downloads].
  fold renamed. by rewrite lookup_insert_ne, lookup_insert_eq.
Qed.

(** The video handler stores under the offered name, whatever the
    classifier says about it and whatever is already there. *)
Lemma video_written_as_offered user_id file_name e h data :
  AccessGate.is_authorized ALLOWED_USER_IDS user_id = true ->
  get_file e = Py.Returns tt ->
  download_file e = Py.Returns data ->
  downloads (fst (handle_video user_id file_name e h))
  = <[offered_name (Video file_name) e := data]> (downloads h).
Proof.
  intros Ha Hg Hd. unfold Uploads.handle_video.
  by rewrite Ha, Hg, Hd.
Qed.

(** So does the audio handler. *)
Lemma audio_written_as_offered user_id file_name e h data :
  AccessGate.is_authorized ALLOWED_USER_IDS user_id = true ->
  get_file e = Py.Returns tt ->
  download_file e = Py.Returns data ->
  downloads (fst (handle_audio user_id file_name e h))
  = <[offered_name (Audio file_name) e := data]> (downloads h).
Proof.
  intros Ha Hg Hd. unfold Uploads.handle_audio.
  by rewrite Ha, Hg, Hd.
Qed.

End Handlers.

(** C5.  The allow-listed operator 1001 sends a video, and an audio file,
    whose file name is "payload.exe".  The classifier denies that name,
    and the document handler, given the same name, writes nothing; the
    video and the audio handler never ask the classifier and store the
    content under "payload.exe" in the downloads directory. *)
Theorem video_and_audio_bypass_file_classifier (data : bytes) :
  SafetyFilter.is_file_allowed (Py.lit "payload.exe") = false
  /\ fst (handle_upload [1001] 1001 (Document (Some (Py.lit "payload.exe")))
            (delivery data) empty_host) = empty_host
  /\ downloads (fst (handle_upload [1001] 1001 (Video (Some (Py.lit "payload.exe")))
                       (delivery data) empty_host)) !! Py.lit "payload.exe"
     = Some data
  /\ downloads (fst (handle_upload [1001] 1001 (Audio (Some (Py.lit "payload.exe")))
                       (delivery data) empty_host)) !! Py.lit "payload.exe"
     = Some data.
Proof.
  split; [by vm_compute|]. split.
  - apply document_denied_not_written. by vm_compute.
  - cbn [handle_upload].
    rewrite video_written_as_offered with (data := data) by done.
    rewrite audio_written_as_offered with (data := data) by done.
    cbn [offered_name Py.or_default]. by rewrite !lookup_insert_eq.
Qed.

(** C9.  The downloads directory holds "clip.mp4" and the allow-listed
    operator 1001 uploads a file named "clip.mp4".  Sent as a document,
    the old file stays and the new content is stored as
    "clip_143005.mp4".  Sent as a video or as an audio file, the new
    content replaces the old one under "clip.mp4" and no other file
    appears. *)
Theorem video_and_audio_overwrite_existing (old data : bytes) :
  let document :=
    fst (handle_upload [1001] 1001 (Document (Some (Py.lit "clip.mp4")))
           (delivery data) (host_with_clip old)) in
  let video :=
    fst (handle_upload [1001] 1001 (Video (Some (Py.lit "clip.mp4")))
           (delivery data) (host_with_clip old)) in
  let audio :=
    fst (handle_upload [1001] 1001 (Audio (Some (Py.lit "clip.mp4")))
           (delivery data) (host_with_clip old)) in
  (downloads document !! Py.lit "clip.mp4" = Some old
   /\ downloads document !! Py.lit "clip_143005.mp4" = Some data)
  /\ downloads video = {[ Py.lit "clip.mp4" := data ]}
  /\ downloads audio = {[ Py.lit "clip.mp4" := data ]}.
Proof.
  intros document video audio. split; [|split].
  - subst document. cbn [handle_upload].
    assert (exists_ (Py.lit "clip.mp4") (host_with_clip old) = true) as Hx.
    { unfold exists_, host_with_clip; cbn [downloads].
      apply bool_decide_eq_true. by rewrite lookup_singleton_eq. }
    destruct (document_collision_keeps_existing [1001] 1001
                (Some (Py.lit "clip.mp4")) (delivery data)
                (host_with_clip old) data
                eq_refl eq_refl eq_refl eq_refl Hx ltac:(by vm_compute))
      as [H1 H2].
    split; [|exact H2].
    etrans; [exact H1|].
    unfold host_with_clip; cbn [downloads].
    apply lookup_singleton_eq.
  - subst video. cbn [handle_upload].
    rewrite video_written_as_offered with (data := data) by done.
    cbn [offered_name Py.or_default host_with_clip downloads].
    apply insert_singleton_eq.
  - subst audio. cbn [handle_upload].
    rewrite audio_written_as_offered with (data := data) by done.
    cbn [offered_name Py.or_default host_with_clip downloads].
    apply insert_singleton_eq.
Qed.

End UploadsFacts.

(** ** The volume cache *)

Module VolumeFacts.
Import Volume.

Lemma clamp_max_min level : Z.max 0 (Z.min 100 level) = clamp level.
Proof.
  unfold clamp.
  destruct (Z.ltb_spec level 0); [lia|].
  destruct (Z.ltb_spec 100 level); lia.
Qed.

Lemma clamp_range level : 0 <= clamp level <= 100.
Proof. rewrite <- clamp_max_min. lia. Qed.

Lemma set_then_get_healthy marshal level a x :
  set_then_get marshal level a (healthy x)
  = match read_back marshal (clamp level) with
    | Py.Returns v => v
    | Py.Raises => clamp level
    end.
Proof.
  unfold set_then_get, set_volume, get_current_volume, _get_volume_interface,
    SetMasterVolumeLevelScalar, GetMasterVolumeLevelScalar, read_back.
  rewrite clamp_max_min.
  destruct (_volume_interface a) as [[]|] eqn:E; cbn; rewrite ?E; cbn;
    by destruct (PyFloat.to_int _).
Qed.

(** The levels from 0 to 100 that an endpoint keeping the full double
    reads back unchanged: all but 29, 57 and 58. *)
Lemma read_back_exact_table :
  forallb
    (fun n =>
       let c := Z.of_nat n in
       if (c =? 29) || (c =? 57) || (c =? 58) then true
       else match read_back (fun x => x) c with
            | Py.Returns v => v =? c
            | Py.Raises => false
            end)
    (seq 0 101) = true.
Proof. by vm_compute. Qed.

(** With such an endpoint the round trip does hold away from those three
    levels. *)
Lemma set_then_get_exact level a x :
  clamp level ≠ 29 -> clamp level ≠ 57 -> clamp level ≠ 58 ->
  set_then_get (fun x => x) level a (healthy x) = clamp level.
Proof.
  intros H29 H57 H58. rewrite set_then_get_healthy.
  pose proof (clamp_range level) as Hr.
  pose proof read_back_exact_table as Ht.
  rewrite forallb_forall in Ht.
  specialize (Ht (Z.to_nat (clamp level))).
  rewrite Z2Nat.id in Ht by lia. cbv zeta in Ht.
  rewrite !(proj2 (Z.eqb_neq _ _)) in Ht by done. cbn [orb] in Ht.
  destruct (read_back _ _) as [v|]; [|done].
  apply Z.eqb_eq, Ht, in_seq. lia.
Qed.

(** C6.  [set_volume(29)] followed by [get_current_volume()], every
    platform call succeeding: the write hands 29/100 to the endpoint, the
    read multiplies what the endpoint holds by 100 and truncates, and
    returns 28, not [clamp 29 = 29].  This is so for an endpoint that
    keeps the double it is given and for one that keeps it in single
    precision, whatever state the cache and the endpoint were in. *)
Theorem set_then_get_29_returns_28 (a : audio) (x : PyFloat.float) :
  clamp 29 = 29
  /\ set_then_get (fun x => x) 29 a (healthy x) = 28
  /\ set_then_get PyFloat.c_float 29 a (healthy x) = 28.
Proof.
  split; [done|]. rewrite !set_then_get_healthy. by vm_compute.
Qed.

(** A read that goes through stores what it observed. *)
Lemma get_success_observes a p v :
  (_volume_interface a ≠ None \/ speakers_ok p = true) ->
  endpoint_ok p = true ->
  PyFloat.to_int (PyFloat.mul_int (master_scalar p) 100) = Py.Returns v ->
  snd (get_current_volume a p) = v
  /\ _cached_volume_level (fst (get_current_volume a p)) = v.
Proof.
  intros Hi He Hv.
  unfold get_current_volume, _get_volume_interface, GetMasterVolumeLevelScalar.
  rewrite He.
  destruct (_volume_interface a) as [[]|] eqn:E; cbn; rewrite ?E.
  - by rewrite Hv.
  - destruct Hi as [Hi|Hs]; [done|]. rewrite Hs. cbn. by rewrite Hv.
Qed.

(** A write that goes through stores the clamped level. *)
Lemma set_success_records marshal level a p :
  (_volume_interface a ≠ None \/ speakers_ok p = true) ->
  endpoint_ok p = true ->
  _cached_volume_level (fst (set_volume marshal level a p)) = clamp level.
Proof.
  intros Hi He.
  unfold set_volume, _get_volume_interface, SetMasterVolumeLevelScalar.
  rewrite He, clamp_max_min.
  destruct (_volume_interface a) as [[]|] eqn:E; cbn; [done|].
  destruct Hi as [Hi|Hs]; [done|]. by rewrite Hs.
Qed.

(** A write that fails leaves the cached level alone. *)
Lemma set_failure_keeps marshal level a p :
  (_volume_interface a = None /\ speakers_ok p = false) \/ endpoint_ok p = false ->
  _cached_volume_level (fst (set_volume marshal level a p))
  = _cached_volume_level a.
Proof.
  unfold set_volume, _get_volume_interface, SetMasterVolumeLevelScalar.
  intros [[Hi Hs]|He].
  - by rewrite Hi, Hs.
  - rewrite He. destruct (_volume_interface a) as [[]|]; cbn; [done|].
    by destruct (speakers_ok p).
Qed.



End VolumeFacts.

(** ** The recording lifecycle *)

Module RecordingFacts.
Import Recording.

Section Recorder.

Variable sample : Type.
Variable astype_int16 : sample -> Z.

Local Abbreviation recorder := (recorder sample).
Local Abbreviation stop_recording := (stop_recording astype_int16).
Local Abbreviation tobytes := (tobytes astype_int16).
Local Abbreviation encode_wav := (encode_wav astype_int16).

Lemma length_tobytes (samples : list sample) :
  length (tobytes samples) = (2 * length samples)%nat.
Proof.
  unfold Recording.tobytes.
  induction samples as [|x samples IH]; [done|].
  cbn [flat_map]. rewrite length_app, IH. simpl. lia.
Qed.

(** The payload has one frame per buffered frame. *)
Lemma nframes_encode_wav (data : list (block sample)) :
  nframes (encode_wav data) = Z.of_nat (length (concat data)).
Proof.
  unfold nframes, Recording.encode_wav; cbn [frames sampwidth nchannels].
  rewrite length_tobytes, Nat2Z.inj_mul, Z.mul_comm.
  change (2 * 1) with 2. change (Z.of_nat 2) with 2.
  apply Z.div_mul. done.
Qed.

Lemma start_recording_result (e : start_env) (r : recorder) :
  snd (start_recording e r) = false
  <-> _recording r = true
      \/ import_sounddevice e = false
      \/ stream_start e = false.
Proof.
  unfold Recording.start_recording.
  destruct (_recording r), (import_sounddevice e), (stream_start e);
    cbn; intuition congruence.
Qed.

Lemma stop_recording_result (e : stop_env) (r : recorder) :
  snd (stop_recording e r) = None
  <-> _recording r = false
      \/ _recording_data r = []
      \/ _recording_stream r = None
      \/ import_numpy e = false
      \/ stream_close e = false
      \/ encode e = false.
Proof.
  unfold Recording.stop_recording.
  destruct (_recording r), (import_numpy e), (stream_close e), (encode e);
    cbn; destruct (_recording_stream r), (_recording_data r);
    cbn; intuition congruence.
Qed.

Lemma stop_recording_payload (e : stop_env) (r : recorder) (w : wav) :
  snd (stop_recording e r) = Some w ->
  w = encode_wav (_recording_data r).
Proof.
  unfold Recording.stop_recording.
  destruct (_recording r), (import_numpy e), (stream_close e), (encode e);
    cbn; destruct (_recording_stream r), (_recording_data r);
    cbn; congruence.
Qed.

(** While a recording is active the stream global is bound, so a stop
    never fails on it. *)
Lemma active_has_stream (r : recorder) :
  reachable astype_int16 r ->
  _recording r = true -> _recording_stream r = Some tt.
Proof.
  induction 1 as [|e r _ IH|indata r _ IH|e r _ IH].
  - done.
  - unfold Recording.start_recording.
    destruct (_recording r) eqn:Hr; [by cbn; rewrite Hr; auto|].
    by destruct (import_sounddevice e), (stream_start e).
  - unfold Recording.callback.
    destruct (_recording r) eqn:Hr; [by cbn; auto|congruence].
  - unfold Recording.stop_recording.
    destruct (_recording r) eqn:Hr; [|by cbn; congruence].
    destruct (import_numpy e), (stream_close e), (encode e);
      cbn; destruct (_recording_stream r), (_recording_data r); done.
Qed.

(** C7, as the code has it.  [start_recording] returns not-started when
    a recording is already active, and then leaves the whole state, the
    frame buffer included, as it was; it also returns not-started when
    the capture stream cannot be opened.  [stop_recording] returns
    no-data when no recording is active, and also when a recording is
    active but no frame has been buffered, or when closing the stream or
    encoding fails (or when the stream global is unbound, which
    [active_has_stream] excludes while a recording is active).  In every
    other case it returns a payload with one
    channel, two bytes per sample and 44100 frames per second that has
    exactly as many frames as were buffered, so that its duration is
    that number over 44100 seconds.  A stop of an active recording
    leaves the recorder idle with an empty buffer. *)
Theorem recording_contract (es : start_env) (et : stop_env) (r : recorder) :
  (snd (start_recording es r) = false
   <-> _recording r = true
       \/ import_sounddevice es = false
       \/ stream_start es = false)
  /\ (_recording r = true -> fst (start_recording es r) = r)
  /\ (snd (stop_recording et r) = None
      <-> _recording r = false
          \/ _recording_data r = []
          \/ _recording_stream r = None
          \/ import_numpy et = false
          \/ stream_close et = false
          \/ encode et = false)
  /\ (forall w, snd (stop_recording et r) = Some w ->
        nchannels w = 1 /\ sampwidth w = 2 /\ framerate w = 44100
        /\ nframes w = buffered_frames r)
  /\ (_recording r = true ->
        _recording (fst (stop_recording et r)) = false
        /\ _recording_data (fst (stop_recording et r)) = []).
Proof.
  split; [apply start_recording_result|].
  split; [by unfold Recording.start_recording; intros ->|].
  split; [apply stop_recording_result|].
  split.
  - intros w ->%stop_recording_payload.
    rewrite nframes_encode_wav. done.
  - intros Hr. unfold Recording.stop_recording. rewrite Hr.
    destruct (import_numpy et), (stream_close et), (encode et);
      cbn; destruct (_recording_stream r), (_recording_data r); done.
Qed.

End Recorder.

(** C7 as stated fails twice.  From the initial state, with no recording
    active, a start whose stream cannot be opened returns not-started.
    And right after a successful start, with the recording active and no
    block delivered yet, a stop on which every library call succeeds
    returns no-data. *)
Lemma recording_contract_counterexample :
  ~ (snd (start_recording (StartEnv true false) (startup Z)) = false
     <-> _recording (startup Z) = true)
  /\ ~ (snd (stop_recording (fun x => x) (StopEnv true true true) active) = None
        <-> _recording active = false).
Proof. split; intros [H _]; by specialize (H eq_refl). Qed.

(** A complete cycle: two blocks of three and two frames give a payload
    of five frames, ten bytes. *)
Example recording_cycle :
  let r := callback [4; 5] (callback [1; 2; 3] active) in
  snd (stop_recording (fun x => x) (StopEnv true true true) r)
  = Some {| nchannels := 1; sampwidth := 2; framerate := 44100;
            frames := [1; 0; 2; 0; 3; 0; 4; 0; 5; 0]%N |}.
Proof. reflexivity. Qed.

End RecordingFacts.

(** ** The access gate: admission, permanence, separation, alerts *)

Module AccessGateMore.
Import AccessGate Views AccessGateFacts.

Section Gate.

Variable ALLOWED_USER_IDS : list Z.

Local Abbreviation is_authorized := (is_authorized ALLOWED_USER_IDS).
Local Abbreviation feed := (feed ALLOWED_USER_IDS).
Local Abbreviation run := (run ALLOWED_USER_IDS).

(** What one event does to the alerts. *)
Lemma alerts_feed ev g :
  alerts (fst (feed ev g))
  = alerts g
    ++ (if negb (is_blocked g (id (from_user ev)))
           && negb (is_authorized (id (from_user ev)))
           && bool_decide (kind ev = CallbackQuery)
        then [id (from_user ev)] else []).
Proof.
  unfold AccessGate.feed, auth_middleware, auth_callback_middleware.
  destruct (is_blocked g (id (from_user ev))); cbn [negb andb].
  - destruct (kind ev); by rewrite app_nil_r.
  - destruct (is_authorized (id (from_user ev))); cbn [negb andb];
      destruct (kind ev); cbn; by rewrite ?app_nil_r.
Qed.

(** An admitted event changes nothing but the list of handled events. *)
Lemma feed_admitted ev g :
  is_authorized (id (from_user ev)) = true ->
  is_blocked g (id (from_user ev)) = false ->
  feed ev g = (call_handler ev g, Admit).
Proof.
  intros Ha Hb.
  destruct (feed_cases ALLOWED_USER_IDS ev g) as [[H _]|[(_ & H & _)|(_ & _ & H)]];
    cbv zeta in *; congruence.
Qed.

(** X1.  An allow-listed operator who is not blocked has every one of its
    events passed to a handler, in the order sent, whatever other operators
    send in between; its counter does not move and nothing is printed
    about it. *)
Theorem allowed_always_admitted user_id evs g :
  is_authorized user_id = true ->
  is_blocked g user_id = false ->
  handled_from user_id (run evs g)
  = handled_from user_id g ++ events_of user_id evs
  /\ attempts (run evs g) user_id = attempts g user_id
  /\ printed_about user_id (run evs g) = printed_about user_id g.
Proof.
  intros Ha. revert g.
  induction evs as [|ev evs IH]; intros g Hb.
  - by rewrite app_nil_r.
  - rewrite run_cons. unfold events_of. rewrite filter_cons.
    destruct (decide (id (from_user ev) = user_id)) as [Heq|Hne].
    + subst user_id. rewrite feed_admitted by done. cbn [fst].
      destruct (IH (call_handler ev g)) as (H1 & H2 & H3); [done|].
      rewrite H1, H2, H3, handled_from_call, decide_True by done.
      by rewrite <- app_assoc.
    + destruct (feed_other ALLOWED_USER_IDS user_id ev g Hne) as (E1 & E2 & E3).
      destruct (IH (fst (feed ev g))) as (H1 & H2 & H3).
      { unfold is_blocked in *. by rewrite E1. }
      by rewrite H1, H2, H3, E1, E2, E3.
Qed.

(** X2.  A block is permanent: from any state in which an id is blocked,
    no sequence of events, of any operator, unblocks it, moves its counter,
    prints about it, alerts it or brings one of its events to a handler. *)
Theorem blocked_forever user_id evs g :
  is_blocked g user_id = true ->
  is_blocked (run evs g) user_id = true
  /\ attempts (run evs g) user_id = attempts g user_id
  /\ printed_about user_id (run evs g) = printed_about user_id g
  /\ alerts_to user_id (run evs g) = alerts_to user_id g
  /\ handled_from user_id (run evs g) = handled_from user_id g.
Proof.
  revert g. induction evs as [|ev evs IH]; intros g Hb; [done|].
  rewrite run_cons.
  assert (is_blocked (fst (feed ev g)) user_id = true) as Hb'
    by by apply feed_blocked_stays.
  destruct (IH _ Hb') as (H1 & H2 & H3 & H4 & H5).
  rewrite H1, H2, H3, H4, H5. split; [done|].
  destruct (decide (id (from_user ev) = user_id)) as [Heq|Hne].
  - subst user_id. by rewrite feed_blocked.
  - destruct (feed_other ALLOWED_USER_IDS user_id ev g Hne) as (E1 & E2 & E3).
    rewrite E1, E2, E3. repeat split.
    unfold alerts_to. rewrite alerts_feed, filter_app.
    destruct (_ && _); [|by rewrite filter_nil, app_nil_r].
    by rewrite filter_cons, decide_False, filter_nil, app_nil_r.
Qed.

(** Two states that show the same about [user_id] still do after one more
    event. *)
Lemma feed_same_view user_id ev g1 g2 :
  attempts g1 user_id = attempts g2 user_id ->
  printed_about user_id g1 = printed_about user_id g2 ->
  handled_from user_id g1 = handled_from user_id g2 ->
  attempts (fst (feed ev g1)) user_id = attempts (fst (feed ev g2)) user_id
  /\ printed_about user_id (fst (feed ev g1))
     = printed_about user_id (fst (feed ev g2))
  /\ handled_from user_id (fst (feed ev g1))
     = handled_from user_id (fst (feed ev g2)).
Proof.
  intros Ea Ep Eh.
  destruct (decide (id (from_user ev) = user_id)) as [Heq|Hne].
  - subst user_id.
    assert (is_blocked g1 (id (from_user ev)) = is_blocked g2 (id (from_user ev)))
      as Eb by (unfold is_blocked; by rewrite Ea).
    destruct (is_blocked g2 (id (from_user ev))) eqn:Hb2.
    + by rewrite !feed_blocked.
    + destruct (is_authorized (id (from_user ev))) eqn:Ha.
      * rewrite !feed_admitted by done. cbn [fst].
        rewrite !handled_from_call, Eh. by unfold attempts, printed_about in *.
      * destruct (feed_unauthorized ALLOWED_USER_IDS ev g1 Ha Eb) as (-> & -> & H1 & _).
        destruct (feed_unauthorized ALLOWED_USER_IDS ev g2 Ha Hb2) as (-> & -> & H2 & _).
        unfold handled_from. by rewrite H1, H2, Ea, Ep.
  - destruct (feed_other ALLOWED_USER_IDS user_id ev g1 Hne) as (-> & -> & ->).
    by destruct (feed_other ALLOWED_USER_IDS user_id ev g2 Hne) as (-> & -> & ->).
Qed.

Lemma run_same_view user_id evs g1 g2 :
  attempts g1 user_id = attempts g2 user_id ->
  printed_about user_id g1 = printed_about user_id g2 ->
  handled_from user_id g1 = handled_from user_id g2 ->
  attempts (run evs g1) user_id = attempts (run evs g2) user_id
  /\ printed_about user_id (run evs g1) = printed_about user_id (run evs g2)
  /\ handled_from user_id (run evs g1) = handled_from user_id (run evs g2).
Proof.
  revert g1 g2. induction evs as [|ev evs IH]; intros g1 g2 Ea Ep Eh; [done|].
  rewrite !run_cons.
  destruct (feed_same_view user_id ev g1 g2 Ea Ep Eh) as (? & ? & ?).
  by apply IH.
Qed.

(** X3.  Operators do not interfere: what the gate holds about an id (its
    counter, the diagnostics printed about it, its events that reached a
    handler) after a sequence of events is what it would hold had only that
    id's own events been sent.  In particular nobody can push another
    operator towards the block. *)
Theorem operators_are_separate user_id evs g :
  attempts (run evs g) user_id = attempts (run (events_of user_id evs) g) user_id
  /\ printed_about user_id (run evs g)
     = printed_about user_id (run (events_of user_id evs) g)
  /\ handled_from user_id (run evs g)
     = handled_from user_id (run (events_of user_id evs) g).
Proof.
  revert g. induction evs as [|ev evs IH]; intros g; [done|].
  unfold events_of. rewrite filter_cons.
  destruct (decide (id (from_user ev) = user_id)) as [Heq|Hne].
  - rewrite !run_cons. apply IH.
  - rewrite run_cons.
    destruct (feed_other ALLOWED_USER_IDS user_id ev g Hne) as (E1 & E2 & E3).
    destruct (run_same_view user_id evs (fst (feed ev g)) g E1 E2 E3)
      as (-> & -> & ->).
    apply IH.
Qed.

Lemma take_snoc {A} (k : nat) (l : list A) (x : A) :
  take k (l ++ [x])
  = take k l ++ (if decide (length l < k)%nat then [x] else []).
Proof.
  destruct (decide (length l < k)%nat) as [Hlt|Hge].
  - rewrite take_app_ge by lia.
    rewrite (take_ge l) by lia.
    destruct (k - length l)%nat eqn:E; [lia|]. simpl. by rewrite take_nil.
  - rewrite take_app_le by lia. by rewrite app_nil_r.
Qed.

(** X4.  An id that is not on the allow-list is answered with the "no
    access" alert once for each callback query among its first
    [MAX_ATTEMPTS + 1] events, and never for a message nor for anything it
    sends later. *)
Theorem alerts_only_before_block user_id evs :
  is_authorized user_id = false ->
  length (alerts_to user_id (run evs startup))
  = length (callback_queries
              (take (Z.to_nat (_MAX_ATTEMPTS + 1)) (events_of user_id evs))).
Proof.
  intros Ha.
  induction evs as [|ev evs IH] using rev_ind; [done|].
  rewrite run_snoc. unfold alerts_to. rewrite alerts_feed, filter_app, length_app.
  fold (alerts_to user_id (run evs startup)). rewrite IH.
  unfold events_of.
  rewrite (filter_snoc_id (fun ev => id (from_user ev))).
  fold (events_of user_id evs).
  destruct (decide (id (from_user ev) = user_id)) as [Heq|Hne].
  - subst user_id. rewrite Ha. cbn [negb andb].
    rewrite take_snoc. unfold callback_queries at 2.
    rewrite filter_app, length_app.
    fold (callback_queries
            (take (Z.to_nat (_MAX_ATTEMPTS + 1)) (events_of (id (from_user ev)) evs))).
    f_equal.
    destruct (unauthorized_progress ALLOWED_USER_IDS (id (from_user ev)) evs Ha)
      as [Hat _].
    assert (Z.of_nat (length (events_of (id (from_user ev)) evs))
            = sent_by (id (from_user ev)) evs) as Hn by done.
    unfold is_blocked. rewrite Hat. unfold _MAX_ATTEMPTS in *.
    destruct (decide (length (events_of (id (from_user ev)) evs) < Z.to_nat (5 + 1))%nat)
      as [Hlt|Hge].
    + rewrite (proj2 (Z.ltb_ge _ _)) by lia. cbn [negb andb].
      rewrite filter_cons, filter_nil.
      destruct (decide (kind ev = CallbackQuery)) as [Hk|Hk].
      * by rewrite bool_decide_eq_true_2, filter_cons, decide_True.
      * by rewrite bool_decide_eq_false_2.
    + rewrite (proj2 (Z.ltb_lt _ _)) by lia. done.
  - rewrite app_nil_r.
    destruct (_ && _ && _); [|by rewrite filter_nil; cbn; lia].
    rewrite filter_cons, decide_False, filter_nil by done. cbn. lia.
Qed.

End Gate.

Lemma allowed_always_admitted_witness :
  is_authorized [1001] 1001 = true
  /\ is_blocked startup 1001 = false
  /\ handled_from 1001 (run [1001] probing startup)
     = handled_from 1001 startup ++ events_of 1001 probing.
Proof.
  split; [reflexivity|]. split; [reflexivity|].
  destruct (allowed_always_admitted [1001] 1001 probing startup eq_refl eq_refl)
    as [H _].
  exact H.
Defined.

Lemma blocked_forever_witness :
  is_blocked (run [1001] probing startup) 666 = true
  /\ is_blocked (run [1001] probing (run [1001] probing startup)) 666 = true.
Proof.
  split; [reflexivity|].
  destruct (blocked_forever [1001] 666 probing (run [1001] probing startup)
              eq_refl) as [H _].
  exact H.
Defined.

Lemma alerts_only_before_block_witness :
  is_authorized [1001] 666 = false
  /\ length (alerts_to 666 (run [1001] probing startup))
     = length (callback_queries
                 (take (Z.to_nat (_MAX_ATTEMPTS + 1)) (events_of 666 probing))).
Proof.
  split; [reflexivity|].
  exact (alerts_only_before_block [1001] 666 probing eq_refl).
Defined.

End AccessGateMore.

(** ** File uploads: what a handler may change *)

Module UploadsMore.
Import Uploads Views SafetyFilterFacts.

Section Handlers.

Variable ALLOWED_USER_IDS : list Z.

Local Abbreviation handle_upload := (handle_upload ALLOWED_USER_IDS).



End Handlers.

Lemma stamp_plain ts : stamp ts -> Path.plain ts /\ Path.dot ∉ ts.
Proof.
  unfold stamp, Path.plain. intros H. split.
  - eapply Forall_impl; [exact H|].
    unfold Path.sep, Path.altsep, Path.colon. intros c [?| ->]; [lia|done].
  - intros Hin. rewrite Forall_forall in H. specialize (H _ Hin).
    unfold Path.dot in H. destruct H as [?|?]; [lia|done].
Qed.

Lemma plain_lit_app base ts :
  Path.plain base -> stamp ts -> Path.plain (base ++ ts).
Proof.
  intros Hb Hs. apply Forall_app. split; [done|]. by apply stamp_plain.
Qed.

(** The suffix of a plain name without a dot is empty. *)
Lemma suffix_no_dot p :
  Path.plain p -> p ≠ [] -> Path.dot ∉ p -> Path.suffix p = [].
Proof.
  intros Hp Hn Hd. unfold Path.suffix. rewrite name_plain; [|done..|].
  - rewrite from_last_absent; [done|].
    clear Hp Hn. induction p as [|c p IH]; [by intros ?%elem_of_nil|].
    apply not_elem_of_cons in Hd as [Hc Hd]. cbn [Py.lstrip].
    rewrite (proj2 (N.eqb_neq c Path.dot)) by done. by apply not_elem_of_cons.
  - intros ->. apply Hd. by left.
Qed.

(** The name a handler makes up, a fixed word, the time stamp and a fixed
    extension, passes the classifier when the extension is not blocked. *)
Lemma made_up_name_allowed word ts ext :
  Path.plain word -> Py.lstrip Path.dot word ≠ [] ->
  stamp ts ->
  Path.plain ext -> Path.dot ∉ ext ->
  Py.lower (Path.dot :: ext) ∉ SafetyFilter.BLOCKED_EXTENSIONS ->
  SafetyFilter.is_file_allowed (word ++ ts ++ Path.dot :: ext) = true.
Proof.
  intros Hw Hl Hs He Hd Hn.
  rewrite app_assoc. unfold SafetyFilter.is_file_allowed.
  destruct ((word ++ ts) ++ Path.dot :: ext) eqn:E; [done|]. rewrite <- E.
  rewrite suffix_plain; [|by apply plain_lit_app|done..|].
  - by rewrite bool_decide_eq_false_2.
  - rewrite lstrip_app by done. by destruct (Py.lstrip Path.dot word).
Qed.

(** X7.  The names the handlers make up themselves always pass the file
    classifier: for a photo, a voice note, and a document, video or audio
    file sent without a file name, the name built from the time stamp is
    allowed.  Only a name chosen by the sender can be a blocked one. *)
Theorem default_names_pass_classifier a e :
  stamp (now_date_time e) ->
  sender_named a = false ->
  SafetyFilter.is_file_allowed (offered_name a e) = true.
Proof.
  intros Hs Hnamed.
  assert (SafetyFilter.is_file_allowed (Py.lit "file_" ++ now_date_time e) = true)
    as Hdoc.
  { unfold SafetyFilter.is_file_allowed.
    destruct (Py.lit "file_" ++ now_date_time e) eqn:E; [done|]. rewrite <- E.
    rewrite suffix_no_dot; [done|..].
    - apply plain_lit_app; [|done]. unfold Path.plain. compute_done.
    - by rewrite E.
    - intros [Hin|Hin]%elem_of_app.
      + revert Hin. compute_done.
      + by apply stamp_plain in Hs as [_ ?]. }
  assert (forall word ext,
             Path.plain word -> Py.lstrip Path.dot word ≠ [] ->
             Path.plain ext -> Path.dot ∉ ext ->
             Py.lower (Path.dot :: ext) ∉ SafetyFilter.BLOCKED_EXTENSIONS ->
             SafetyFilter.is_file_allowed
               (word ++ now_date_time e ++ Path.dot :: ext) = true) as Hmade
    by (intros; by apply made_up_name_allowed).
  destruct a as [|[[|c s]|]|[[|c s]|]|[[|c s]|]|]; cbn [offered_name Py.or_default];
    try done; try exact Hdoc;
    change (Py.lit ".jpg") with (Path.dot :: Py.lit "jpg");
    change (Py.lit ".mp4") with (Path.dot :: Py.lit "mp4");
    change (Py.lit ".mp3") with (Path.dot :: Py.lit "mp3");
    change (Py.lit ".ogg") with (Path.dot :: Py.lit "ogg");
    apply Hmade; unfold Path.plain; compute_done.
Qed.


Lemma default_names_pass_classifier_witness :
  stamp (now_date_time (delivery [1%N]))
  /\ sender_named Photo = false
  /\ SafetyFilter.is_file_allowed (offered_name Photo (delivery [1%N])) = true.
Proof.
  assert (stamp (now_date_time (delivery [1%N]))) as Hs.
  { unfold stamp. compute_done. }
  split; [exact Hs|]. split; [reflexivity|].
  exact (default_names_pass_classifier Photo (delivery [1%N]) Hs eq_refl).
Defined.

End UploadsMore.

(** ** The recording lifecycle: a whole session *)

Module RecordingMore.
Import Recording RecordingViews RecordingFacts.

Section Recorder.

Variable sample : Type.
Variable astype_int16 : sample -> Z.

Local Abbreviation recorder := (recorder sample).

Lemma callback_active (indata : block sample) (r : recorder) :
  _recording r = true ->
  callback indata r
  = {| _recording := true;
       _recording_data := _recording_data r ++ [indata];
       _recording_stream := _recording_stream r |}.
Proof. intros Hr. unfold callback. by rewrite Hr. Qed.

(** While a recording is active every delivered block is appended. *)
Lemma deliver_active (blocks : list (block sample)) (r : recorder) :
  _recording r = true ->
  deliver blocks r
  = {| _recording := true;
       _recording_data := _recording_data r ++ blocks;
       _recording_stream := _recording_stream r |}.
Proof.
  revert r. induction blocks as [|b blocks IH]; intros r Hr.
  - cbn. rewrite app_nil_r. destruct r; cbn in *. by subst.
  - change (deliver (b :: blocks) r) with (deliver blocks (callback b r)).
    rewrite callback_active by done. rewrite IH by done.
    cbn. by rewrite <- app_assoc.
Qed.

(** While no recording is active every delivered block is dropped. *)
Lemma deliver_idle (blocks : list (block sample)) (r : recorder) :
  _recording r = false -> deliver blocks r = r.
Proof.
  intros Hr. induction blocks as [|b blocks IH]; [done|].
  change (deliver (b :: blocks) r) with (deliver blocks (callback b r)).
  unfold callback. by rewrite Hr.
Qed.

(** X8.  A whole session: from an idle recorder, a start that succeeds,
    any non-empty run of blocks from the sound device, and a stop that
    succeeds give a payload that holds every delivered sample, in the order
    of arrival, two bytes each, and leave the recorder idle with an empty
    buffer. *)
Theorem session_payload_is_what_was_captured
    (blocks : list (block sample)) (r : recorder) :
  _recording r = false ->
  blocks ≠ [] ->
  stop_recording astype_int16 (StopEnv true true true)
    (deliver blocks (fst (start_recording (StartEnv true true) r)))
  = ({| _recording := false; _recording_data := [];
        _recording_stream := Some tt |},
     Some {| nchannels := 1; sampwidth := 2; framerate := 44100;
             frames := tobytes astype_int16 (concat blocks) |}).
Proof.
  intros Hr Hb. unfold start_recording. rewrite Hr. cbn [negb import_sounddevice
    stream_start fst].
  rewrite deliver_active by done. cbn [_recording_data _recording_stream app].
  unfold stop_recording. cbn. destruct blocks; done.
Qed.

(** X9.  Whatever starts, stops and deliveries have happened, and
    whichever of them failed, an idle recorder holds no frames: nothing
    captured in one session is left over for the next one, and blocks that
    arrive while idle are dropped. *)
Theorem idle_recorder_is_empty (r : recorder) :
  reachable astype_int16 r ->
  _recording r = false ->
  _recording_data r = []
  /\ forall blocks, deliver blocks r = r.
Proof.
  intros Hreach Hr. split; [|by intros; apply deliver_idle].
  induction Hreach as [|e r _ IH|indata r _ IH|e r _ IH].
  - done.
  - revert Hr. unfold start_recording.
    destruct (_recording r) eqn:E; [by cbn; rewrite E|].
    destruct (import_sounddevice e), (stream_start e); cbn; auto.
  - revert Hr. unfold callback.
    destruct (_recording r) eqn:E; [done|auto].
  - revert Hr. unfold stop_recording.
    destruct (_recording r) eqn:E; [|by cbn; auto].
    destruct (import_numpy e), (stream_close e), (encode e);
      cbn; destruct (_recording_stream r), (_recording_data r); done.
Qed.

End Recorder.

Lemma session_payload_is_what_was_captured_witness :
  _recording (startup Z) = false
  /\ [[1; 2; 3]; [4; 5]] ≠ ([] : list (block Z))
  /\ stop_recording (fun x => x) (StopEnv true true true)
       (deliver [[1; 2; 3]; [4; 5]]
          (fst (start_recording (StartEnv true true) (startup Z))))
     = ({| _recording := false; _recording_data := [];
           _recording_stream := Some tt |},
        Some {| nchannels := 1; sampwidth := 2; framerate := 44100;
                frames := tobytes (fun x => x) (concat [[1; 2; 3]; [4; 5]]) |}).
Proof.
  assert ([[1; 2; 3]; [4; 5]] ≠ ([] : list (block Z))) as Hne by discriminate.
  split; [reflexivity|]. split; [exact Hne|].
  exact (session_payload_is_what_was_captured Z (fun x => x)
           [[1; 2; 3]; [4; 5]] (startup Z) eq_refl Hne).
Defined.

Lemma idle_recorder_is_empty_witness :
  reachable (fun x => x)
    (fst (stop_recording (fun x => x) (StopEnv true true false)
            (callback [7] active)))
  /\ _recording (fst (stop_recording (fun x => x) (StopEnv true true false)
                        (callback [7] active))) = false
  /\ _recording_data (fst (stop_recording (fun x => x) (StopEnv true true false)
                             (callback [7] active))) = [].
Proof.
  assert (reachable (fun x => x)
            (fst (stop_recording (fun x => x) (StopEnv true true false)
                    (callback [7] active)))) as Hreach.
  { apply reach_stop, reach_callback. unfold active.
    apply reach_start, reach_startup. }
  split; [exact Hreach|]. split; [reflexivity|].
  destruct (idle_recorder_is_empty Z (fun x => x) _ Hreach eq_refl) as [H _].
  exact H.
Defined.

End RecordingMore.

(** ** The volume cache: what reaches the endpoint *)

Module VolumeMore.
Import Volume VolumeViews VolumeFacts.

(** Every level from 0 to 100, divided by 100, is a scalar from 0.0 to
    1.0, before and after the conversion to single precision. *)
Lemma scalar_table :
  forallb
    (fun n =>
       in_unit (PyFloat.truediv (Z.of_nat n) 100)
       && in_unit (PyFloat.c_float (PyFloat.truediv (Z.of_nat n) 100)))
    (seq 0 101) = true.
Proof. by vm_compute. Qed.

Lemma scalar_in_unit level :
  in_unit (PyFloat.truediv (clamp level) 100) = true
  /\ in_unit (PyFloat.c_float (PyFloat.truediv (clamp level) 100)) = true.
Proof.
  pose proof (clamp_range level) as Hr.
  pose proof scalar_table as Ht. rewrite forallb_forall in Ht.
  specialize (Ht (Z.to_nat (clamp level))).
  rewrite Z2Nat.id in Ht by lia.
  apply andb_true_iff, Ht, in_seq. lia.
Qed.

(** X10.  Whatever integer is asked for, [set_volume] either leaves the
    endpoint and the cached level as they were (the handle cannot be
    resolved or the endpoint call raises) or hands the endpoint the scalar
    [clamp(level) / 100], which lies between 0.0 and 1.0, and caches
    [clamp(level)], which lies between 0 and 100: the endpoint is never
    driven out of its range. *)
Theorem set_volume_stays_in_range marshal level a p :
  ((snd (set_volume marshal level a p) = p
    /\ _cached_volume_level (fst (set_volume marshal level a p))
       = _cached_volume_level a)
   \/ (master_scalar (snd (set_volume marshal level a p))
       = marshal (PyFloat.truediv (clamp level) 100)
       /\ _cached_volume_level (fst (set_volume marshal level a p)) = clamp level))
  /\ 0 <= clamp level <= 100
  /\ in_unit (PyFloat.truediv (clamp level) 100) = true
  /\ in_unit (PyFloat.c_float (PyFloat.truediv (clamp level) 100)) = true.
Proof.
  split; [|split; [apply clamp_range|apply scalar_in_unit]].
  unfold set_volume, _get_volume_interface, SetMasterVolumeLevelScalar.
  rewrite clamp_max_min.
  destruct (_volume_interface a) as [[]|] eqn:E.
  - destruct (endpoint_ok p); cbn; [by right|by left].
  - destruct (speakers_ok p); [|by left].
    destruct (endpoint_ok p); cbn; [by right|by left].
Qed.

End VolumeMore.

(** ** Python's [int] and [str]: what is printed parses back *)

Module PyTextFacts.
Import PyText.

Lemma number_digits_of fuel n acc :
  (n < 2 ^ N.of_nat fuel)%N ->
  fold_left (fun a d => (10 * a + d)%N) (digits_of fuel n acc) 0%N
  = fold_left (fun a d => (10 * a + d)%N) acc n.
Proof.
  revert n acc. induction fuel as [|fuel IH]; intros n acc Hn.
  - cbn in *. by replace n with 0%N by lia.
  - cbn [digits_of]. destruct (N.ltb_spec n 10) as [Hlt|Hge].
    + cbn [fold_left]. by rewrite N.mul_0_r, N.add_0_l.
    + rewrite IH.
      * cbn [fold_left]. f_equal.
        pose proof (N.div_mod n 10). lia.
      * rewrite Nat2N.inj_succ, N.pow_succ_r' in Hn.
        apply N.Div0.div_lt_upper_bound. lia.
Qed.

Lemma digits_of_small fuel n acc :
  Forall (fun d => (d < 10)%N) acc ->
  (n < 2 ^ N.of_nat fuel)%N ->
  Forall (fun d => (d < 10)%N) (digits_of fuel n acc).
Proof.
  revert n acc. induction fuel as [|fuel IH]; intros n acc Hacc Hn; [done|].
  cbn [digits_of]. destruct (N.ltb_spec n 10) as [Hlt|Hge].
  - by apply Forall_cons.
  - apply IH.
    + apply Forall_cons. split; [|done]. apply N.mod_lt. lia.
    + rewrite Nat2N.inj_succ, N.pow_succ_r' in Hn.
      apply N.Div0.div_lt_upper_bound. lia.
Qed.

Lemma digits_of_nonempty fuel n acc :
  digits_of (S fuel) n acc ≠ [].
Proof.
  revert n acc. induction fuel as [|fuel IH]; intros n acc.
  - cbn. by destruct (n <? 10)%N; [|destruct acc].
  - cbn [digits_of]. destruct (n <? 10)%N; [done|]. apply IH.
Qed.

Lemma fuel_enough n : (n < 2 ^ N.of_nat (S (N.to_nat (N.log2 n))))%N.
Proof.
  rewrite Nat2N.inj_succ, N2Nat.id.
  destruct n as [|p]; [done|].
  apply N.log2_spec. lia.
Qed.

Lemma digits_spec z :
  number (digits z) = Z.abs_N z
  /\ Forall (fun d => (d < 10)%N) (digits z)
  /\ digits z ≠ [].
Proof.
  unfold digits, number. split; [|split].
  - by rewrite number_digits_of by apply fuel_enough.
  - apply digits_of_small; [done|apply fuel_enough].
  - apply digits_of_nonempty.
Qed.

Lemma token_of_digit db d :
  (d < 10)%N -> token_of db (d + 48)%N = Digit d.
Proof.
  intros Hd. unfold token_of.
  rewrite (proj2 (N.ltb_lt _ _)) by lia.
  replace ((9 <=? d + 48) && (d + 48 <=? 13) || (d + 48 =? 32))%N with false.
  2: { symmetry. apply orb_false_iff. split.
       - apply andb_false_iff. right. apply N.leb_gt. lia.
       - apply N.eqb_neq. lia. }
  rewrite !(proj2 (N.eqb_neq _ _)) by lia.
  rewrite (proj2 (N.leb_le 48 _)), (proj2 (N.leb_le _ 57)) by lia.
  cbn [andb]. f_equal. lia.
Qed.

Lemma tokens_of_digits db ds :
  Forall (fun d => (d < 10)%N) ds ->
  map (token_of db) (map (fun d => (d + 48)%N) ds) = map Digit ds.
Proof.
  induction 1 as [|d ds Hd _ IH]; [done|].
  cbn [map]. by rewrite token_of_digit, IH.
Qed.

Lemma digits_from_digits d ds :
  digits_from (map Digit (d :: ds)) = Some (d :: ds, []).
Proof.
  revert d. induction ds as [|d' ds IH]; intros d; [done|].
  specialize (IH d'). cbn [map] in *.
  cbn [digits_from] in *. by rewrite IH.
Qed.

(** What [str] prints, [int] reads back, whatever the character database
    says about the characters beyond ASCII. *)
Lemma int_str_of_int db z s :
  str_of_int z = Py.Returns s -> int db s = Py.Returns z.
Proof.
  unfold str_of_int. destruct (Nat.ltb_spec max_str_digits (length (digits z)))
    as [|Hlen]; [done|]. intros [= <-].
  destruct (digits_spec z) as (Hnum & Hsmall & Hne).
  destruct (digits z) as [|d ds] eqn:E; [done|].
  unfold int, decimal_text. rewrite E.
  destruct (Z.ltb_spec z 0) as [Hneg|Hpos].
  - change (map (token_of db) (45%N :: ?l))
      with (token_of db 45 :: map (token_of db) l).
    change (token_of db 45) with (Sign true).
    cbn [skip_spaces]. rewrite tokens_of_digits, digits_from_digits by done.
    cbn [skip_spaces]. rewrite (proj2 (Nat.ltb_ge _ _)) by done.
    rewrite Hnum. f_equal. lia.
  - rewrite tokens_of_digits by done.
    change (map Digit (d :: ds)) with (Digit d :: map Digit ds).
    cbn [skip_spaces].
    change (Digit d :: map Digit ds) with (map Digit (d :: ds)).
    rewrite digits_from_digits.
    cbn [skip_spaces]. rewrite (proj2 (Nat.ltb_ge _ _)) by done.
    rewrite Hnum. f_equal. lia.
Qed.

(** A number of at most 4300 digits is printed, not refused. *)
Lemma str_of_int_small z :
  Z.abs z < 10 ^ 18 -> str_of_int z = Py.Returns (decimal_text z).
Proof.
  intros Hz. unfold str_of_int.
  rewrite (proj2 (Nat.ltb_ge _ _)); [done|].
  unfold digits.
  assert (forall fuel n acc,
             length (digits_of fuel n acc) <= fuel + length acc)%nat as Hlen.
  { induction fuel as [|fuel IH]; intros n acc; [done|].
    cbn [digits_of]. destruct (n <? 10)%N; [cbn; lia|].
    etrans; [apply IH|]. cbn. lia. }
  etrans; [apply Hlen|]. cbn [length]. unfold max_str_digits.
  assert (N.log2 (Z.abs_N z) < 64)%N; [|lia].
  destruct (Z.abs_N z) as [|p] eqn:E; [done|].
  apply N.log2_lt_pow2; [lia|].
  assert (Z.of_N (N.pos p) < 10 ^ 18) by (rewrite <- E, N2Z.inj_abs_N; lia).
  assert (10 ^ 18 < 2 ^ 64) by done.
  lia.
Qed.

End PyTextFacts.

(** ** Text commands and plain text *)

Module CommandsFacts.
Import Commands PyTextFacts.

(** *** Splitting a command line *)

Lemma split_from_word acc w rest :
  Forall (fun c => PyText.isspace c = false) w ->
  PyText.split_from acc (w ++ rest) = PyText.split_from (acc ++ w) rest.
Proof.
  intros Hw. revert acc. induction Hw as [|c w Hc _ IH]; intros acc.
  - by rewrite app_nil_r.
  - cbn [app PyText.split_from]. rewrite Hc, IH. by rewrite <- app_assoc.
Qed.

(** A command word, one blank and an argument word split into the two. *)
Lemma split_two_words cmd arg :
  word cmd -> word arg ->
  PyText.split (cmd ++ [32%N] ++ arg) = [cmd; arg].
Proof.
  intros [Hc1 Hc2] [Ha1 Ha2]. unfold PyText.split.
  rewrite split_from_word by done. cbn [app PyText.split_from].
  change (PyText.isspace 32) with true. cbv iota.
  destruct cmd as [|c cmd]; [done|].
  pose proof (split_from_word [] arg [] Ha2) as Harg.
  rewrite app_nil_r in Harg. rewrite Harg.
  cbn [app PyText.split_from]. by destruct arg.
Qed.

(** What [str] prints is a word. *)
Lemma written_is_word z written :
  PyText.str_of_int z = Py.Returns written -> word written.
Proof.
  unfold PyText.str_of_int. destruct (_ <? _)%nat; [done|]. intros [= <-].
  destruct (digits_spec z) as (_ & Hsmall & Hne).
  unfold PyText.decimal_text.
  assert (Forall (fun c => PyText.isspace c = false)
            (map (fun d => (d + 48)%N) (PyText.digits z))) as Hd.
  { apply Forall_map. eapply Forall_impl; [exact Hsmall|].
    intros d Hd. cbn beta in *.
    assert (d = 0 \/ d = 1 \/ d = 2 \/ d = 3 \/ d = 4 \/ d = 5 \/ d = 6
            \/ d = 7 \/ d = 8 \/ d = 9)%N as Hcases by lia.
    by repeat destruct Hcases as [->|Hcases]; [..|subst d]. }
  destruct (_ <? 0).
  - split; [done|]. by apply Forall_cons.
  - split; [|done]. by destruct (PyText.digits z).
Qed.

Section Handlers.

Variable ALLOWED_USER_IDS : list Z.

Local Abbreviation is_authorized := (AccessGate.is_authorized ALLOWED_USER_IDS).
Local Abbreviation cmd_open := (cmd_open ALLOWED_USER_IDS).
Local Abbreviation handle_text := (handle_text ALLOWED_USER_IDS).
Local Abbreviation cmd_volume := (cmd_volume ALLOWED_USER_IDS).
Local Abbreviation cmd_shutdown := (cmd_shutdown ALLOWED_USER_IDS).

Lemma split_maxsplit_1_shape text :
  PyText.split_maxsplit_1 text = []
  \/ (exists first, PyText.split_maxsplit_1 text = [first])
  \/ (exists first arg, PyText.split_maxsplit_1 text = [first; arg] /\ arg ≠ []).
Proof.
  unfold PyText.split_maxsplit_1.
  destruct (PyText.lstrip_ws text) as [|c s]; [by left|right].
  destruct (PyText.word_and_rest (c :: s)) as [w rest].
  destruct (PyText.lstrip_ws rest) as [|d rest']; [left|right]; eauto.
Qed.


(** X12.  When [handle_text] copies, the clipboard receives the message
    text itself, whole and unchanged, however long it is; only the preview
    in the answer is cut, to the first 100 characters followed by three
    dots, so it never exceeds 103 characters.  A text that starts with a
    slash or is one of the eight menu labels is never copied, nor is
    anything from a sender who is not allow-listed. *)
Theorem text_is_copied_whole user_id text copy clipboard preview :
  handle_text user_id text copy = Some (Copied clipboard preview) ->
  clipboard = text
  /\ (length preview <= 103)%nat
  /\ ((length text <= 100)%nat -> preview = text)
  /\ ((100 < length text)%nat -> preview = take 100 text ++ Py.lit "...")
  /\ is_authorized user_id = true
  /\ Py.startswith (Py.lit "/") text = false
  /\ text ∉ menu_buttons.
Proof.
  unfold Commands.handle_text.
  destruct (is_authorized user_id); cbn [negb]; [|done].
  destruct (Py.startswith (Py.lit "/") text); [done|].
  case_bool_decide as Hm; [done|].
  destruct copy as [[]|]; [|done]. intros [= <- <-].
  unfold PyText.shorten, PyText.upto.
  destruct (Nat.ltb_spec 100 (length text)) as [Hlong|Hshort].
  - split_and!; try done; try lia.
    rewrite length_app, length_take.
    change (length (Py.lit "...")) with 3%nat. lia.
  - split_and!; try done; lia.
Qed.

Variable db : PyText.unicode_data.
Variable marshal : PyFloat.float -> PyFloat.float.

(** X13.  The command word followed by a blank and a decimal integer, as
    [str] writes it, sets the volume to that integer: [cmd_volume] does
    what [set_volume(level)] followed by [get_current_volume()] does and
    reports the level read back, for every integer, negative and beyond
    100 included.  Any text that is not answered with a level leaves the
    volume globals and the platform as they were. *)
Theorem volume_command_sets_the_number user_id cmd level written a p :
  is_authorized user_id = true ->
  word cmd ->
  PyText.str_of_int level = Py.Returns written ->
  cmd_volume db marshal user_id (cmd ++ [32%N] ++ written) a p
  = (Some (VolumeSet (Volume.set_then_get marshal level a p)),
     fst (Volume.get_current_volume
            (fst (Volume.set_volume marshal level a p))
            (snd (Volume.set_volume marshal level a p))),
     snd (Volume.set_volume marshal level a p))
  /\ forall text,
       (forall shown,
           fst (fst (cmd_volume db marshal user_id text a p))
           ≠ Some (VolumeSet shown)) ->
       cmd_volume db marshal user_id text a p
       = (fst (fst (cmd_volume db marshal user_id text a p)), a, p).
Proof.
  intros Ha Hcmd Hw. split.
  - unfold Commands.cmd_volume, Volume.set_then_get. rewrite Ha. cbn [negb].
    rewrite split_two_words by eauto using written_is_word.
    rewrite (int_str_of_int db level written) by done.
    destruct (Volume.set_volume marshal level a p) as [a1 p1]. cbn [fst snd].
    by destruct (Volume.get_current_volume a1 p1).
  - intros text. unfold Commands.cmd_volume. rewrite Ha. cbn [negb].
    destruct (PyText.split text) as [|? [|arg ?]]; [done..|].
    destruct (PyText.int db arg) as [lvl|]; [|done].
    destruct (Volume.set_volume marshal lvl a p) as [a1 p1].
    destruct (Volume.get_current_volume a1 p1) as [a2 shown]. cbn.
    intros H. by destruct (H shown).
Qed.

(** X14.  [cmd_shutdown] checks nothing but that its argument reads as an
    integer: whatever integer that is, zero or negative included, the
    [shutdown /s /t] command is run with its plain decimal writing (which
    reads back as the same integer, whatever sign, zeros, underscores or
    foreign digits the operator typed), and the minutes announced are the
    seconds divided by 60, rounded down. *)
Theorem shutdown_command_takes_any_integer user_id cmd arg seconds written :
  is_authorized user_id = true ->
  word cmd -> word arg ->
  PyText.int db arg = Py.Returns seconds ->
  PyText.str_of_int seconds = Py.Returns written ->
  cmd_shutdown db user_id (cmd ++ [32%N] ++ arg)
  = Some (Scheduled
            [Py.lit "shutdown"; Py.lit "/s"; Py.lit "/t"; written]
            (seconds / 60) seconds)
  /\ 60 * (seconds / 60) <= seconds < 60 * (seconds / 60) + 60
  /\ PyText.int db written = Py.Returns seconds.
Proof.
  intros Ha Hcmd Harg Hint Hstr.
  split; [|split].
  - unfold Commands.cmd_shutdown. rewrite Ha. cbn [negb].
    by rewrite split_two_words, Hint, Hstr.
  - pose proof (Z.div_mod seconds 60). pose proof (Z.mod_pos_bound seconds 60).
    lia.
  - by apply int_str_of_int.
Qed.

End Handlers.


Lemma text_is_copied_whole_witness :
  handle_text [1001] 1001 (Py.lit "hello") (Py.Returns tt)
  = Some (Copied (Py.lit "hello") (Py.lit "hello"))
  /\ Py.lit "hello" = Py.lit "hello".
Proof.
  assert (handle_text [1001] 1001 (Py.lit "hello") (Py.Returns tt)
          = Some (Copied (Py.lit "hello") (Py.lit "hello"))) as H
    by reflexivity.
  split; [exact H|].
  destruct (text_is_copied_whole [1001] 1001 _ _ _ _ H) as [E _].
  exact E.
Defined.

Lemma volume_command_sets_the_number_witness :
  AccessGate.is_authorized [1001] 1001 = true
  /\ word (Py.lit "/volume")
  /\ PyText.str_of_int 150 = Py.Returns (Py.lit "150")
  /\ cmd_volume [1001] PyText.ascii_digits (fun x => x) 1001
       (Py.lit "/volume" ++ [32%N] ++ Py.lit "150")
       Volume.startup (Volume.healthy (PyFloat.of_int 0))
     = (Some (VolumeSet (Volume.set_then_get (fun x => x) 150 Volume.startup
                           (Volume.healthy (PyFloat.of_int 0)))),
        fst (Volume.get_current_volume
               (fst (Volume.set_volume (fun x => x) 150 Volume.startup
                       (Volume.healthy (PyFloat.of_int 0))))
               (snd (Volume.set_volume (fun x => x) 150 Volume.startup
                       (Volume.healthy (PyFloat.of_int 0))))),
        snd (Volume.set_volume (fun x => x) 150 Volume.startup
               (Volume.healthy (PyFloat.of_int 0)))).
Proof.
  assert (word (Py.lit "/volume")) as Hw by (unfold word; compute_done).
  split; [reflexivity|]. split; [exact Hw|]. split; [reflexivity|].
  destruct (volume_command_sets_the_number [1001] PyText.ascii_digits
              (fun x => x) 1001 (Py.lit "/volume") 150 (Py.lit "150")
              Volume.startup (Volume.healthy (PyFloat.of_int 0))
              eq_refl Hw eq_refl) as [H _].
  exact H.
Defined.

Lemma shutdown_command_takes_any_integer_witness :
  AccessGate.is_authorized [1001] 1001 = true
  /\ word (Py.lit "/shutdown") /\ word (Py.lit "-0_5")
  /\ PyText.int PyText.ascii_digits (Py.lit "-0_5") = Py.Returns (-5)
  /\ PyText.str_of_int (-5) = Py.Returns (Py.lit "-5")
  /\ cmd_shutdown [1001] PyText.ascii_digits 1001
       (Py.lit "/shutdown" ++ [32%N] ++ Py.lit "-0_5")
     = Some (Scheduled
               [Py.lit "shutdown"; Py.lit "/s"; Py.lit "/t"; Py.lit "-5"]
               (-5 / 60) (-5)).
Proof.
  assert (word (Py.lit "/shutdown")) as Hc by (unfold word; compute_done).
  assert (word (Py.lit "-0_5")) as Ha by (unfold word; compute_done).
  split; [reflexivity|]. split; [exact Hc|]. split; [exact Ha|].
  split; [reflexivity|]. split; [reflexivity|].
  destruct (shutdown_command_takes_any_integer [1001] PyText.ascii_digits
              1001 (Py.lit "/shutdown") (Py.lit "-0_5") (-5) (Py.lit "-5")
              eq_refl Hc Ha eq_refl eq_refl) as [H _].
  exact H.
Defined.

End CommandsFacts.

(** ** Audio output devices *)

Module AudioDevicesFacts.
Import AudioDevices PyTextFacts.

(** *** Reading back a callback datum *)

Lemma startswith_app p s : Py.startswith p (p ++ s) = true.
Proof.
  induction p as [|c p IH]; [done|].
  cbn. by rewrite N.eqb_refl, IH.
Qed.

Lemma replace_from_clean fuel c0 old new w :
  c0 ∉ w -> PyText.replace_from fuel (c0 :: old) new w = w.
Proof.
  revert w. induction fuel as [|fuel IH]; intros w Hw; [done|].
  destruct w as [|c w]; [done|].
  cbn [PyText.replace_from Py.startswith].
  apply not_elem_of_cons in Hw as [Hc Hw].
  destruct (N.eqb_spec c0 c) as [->|_]; [done|].
  cbn [andb]. by rewrite IH.
Qed.

(** A prefix in front of a text that has nothing of it is taken off. *)
Lemma replace_prefix c0 old new w :
  c0 ∉ w -> PyText.replace (c0 :: old) new ((c0 :: old) ++ w) = new ++ w.
Proof.
  intros Hw. unfold PyText.replace.
  change (length ((c0 :: old) ++ w)) with (S (length (old ++ w))).
  cbn [PyText.replace_from app].
  change (Py.startswith (c0 :: old) (c0 :: old ++ w))
    with (Py.startswith (c0 :: old) ((c0 :: old) ++ w)).
  rewrite startswith_app.
  change (c0 :: old ++ w) with ((c0 :: old) ++ w).
  rewrite drop_app_length. by rewrite replace_from_clean.
Qed.

(** The decimal writing has digits and the minus sign only. *)
Lemma decimal_text_chars z :
  Forall (fun c => c = 45 \/ 48 <= c <= 57)%N (PyText.decimal_text z).
Proof.
  destruct (digits_spec z) as (_ & Hsmall & _).
  assert (Forall (fun c => c = 45 \/ 48 <= c <= 57)%N
            (map (fun d => (d + 48)%N) (PyText.digits z))) as Hd.
  { apply Forall_map. eapply Forall_impl; [exact Hsmall|].
    intros d Hd. cbn beta in *. lia. }
  unfold PyText.decimal_text. destruct (_ <? 0); [|done].
  apply Forall_cons. split; [by left|done].
Qed.

Lemma written_has_no_letter z written c :
  PyText.str_of_int z = Py.Returns written ->
  (57 < c)%N -> c ∉ written.
Proof.
  unfold PyText.str_of_int. destruct (_ <? _)%nat; [done|]. intros [= <-] Hc Hin.
  pose proof (decimal_text_chars z) as Hall.
  rewrite Forall_forall in Hall. apply Hall in Hin. lia.
Qed.

(** What follows the prefix of a callback datum reads back as the number
    that was written there. *)
Lemma datum_reads_back db c0 prefix z written :
  (57 < c0)%N ->
  PyText.str_of_int z = Py.Returns written ->
  PyText.int db (PyText.replace (c0 :: prefix) [] ((c0 :: prefix) ++ written))
  = Py.Returns z.
Proof.
  intros Hc Hw.
  rewrite replace_prefix by eauto using written_has_no_letter.
  by apply int_str_of_int.
Qed.

(** *** The order of the entries *)

Lemma ascending_weaken i j devices :
  j <= i -> ascending i devices -> ascending j devices.
Proof. destruct devices; cbn; [done|]. intros ? [? ?]. split; [lia|done]. Qed.

Lemma ascending_lookup devices : forall i k d,
  ascending i devices -> devices !! k = Some d -> i + Z.of_nat k <= index d.
Proof.
  induction devices as [|d0 rest IH]; intros i k d Hasc Hk; [done|].
  destruct Hasc as [H0 Hrest]. destruct k as [|k]; cbn in Hk.
  - injection Hk as <-. lia.
  - specialize (IH _ _ _ Hrest Hk). lia.
Qed.

Lemma ascending_lt devices : forall i k1 k2 d1 d2,
  ascending i devices ->
  devices !! k1 = Some d1 -> devices !! k2 = Some d2 ->
  (k1 < k2)%nat -> index d1 < index d2.
Proof.
  induction devices as [|d0 rest IH]; intros i k1 k2 d1 d2 Hasc H1 H2 Hlt;
    [done|].
  destruct Hasc as [H0 Hrest].
  destruct k2 as [|k2]; [lia|]. cbn in H2.
  destruct k1 as [|k1]; cbn in H1.
  - injection H1 as <-.
    pose proof (ascending_lookup _ _ _ _ Hrest H2). lia.
  - eapply (IH _ k1 k2); eauto. lia.
Qed.

Lemma entry_index i item d : entry i item = Some d -> index d = i.
Proof.
  destruct item as [| |device_id [[|c s]|]]; cbn; try done;
    try (destruct (PyText.str_of_int i); [|done]); by intros [= <-].
Qed.

Lemma collect_ascending items : forall i, ascending i (collect i items).
Proof.
  induction items as [|item rest IH]; intros i; [done|].
  cbn [collect]. destruct (entry i item) as [d|] eqn:E.
  - apply entry_index in E. cbn. rewrite E. split; [lia|apply IH].
  - eapply ascending_weaken; [|apply IH]. lia.
Qed.

Lemma named_lines_ascending lines : forall i devices,
  named_lines i lines = Py.Returns devices -> ascending i devices.
Proof.
  induction lines as [|line rest IH]; intros i devices.
  - by intros [= <-].
  - cbn [named_lines]. destruct (strip line) as [|c s].
    + intros H. eapply ascending_weaken; [|by apply IH]. lia.
    + destruct (PyText.str_of_int i) as [w|]; [|done].
      destruct (named_lines (i + 1) rest) as [ds|] eqn:E; [|done].
      intros [= <-]. cbn. split; [lia|by apply IH].
Qed.

(** Whichever way the list is obtained, its indexes grow from 0. *)
Lemma get_audio_devices_ascending e result :
  ascending 0 (get_audio_devices e result).
Proof.
  destruct e as [| |items]; cbn.
  - unfold get_audio_devices_powershell.
    destruct result as [[returncode stdout]|]; [|done].
    destruct (returncode =? 0); [|done].
    destruct (named_lines 0 _) as [ds|] eqn:E; [|done].
    by apply named_lines_ascending in E.
  - done.
  - apply collect_ascending.
Qed.

(** When every position yields an entry, position and index agree. *)
Lemma collect_full items : forall i k d,
  (forall j item, items !! j = Some item ->
                  entry (i + Z.of_nat j) item <> None) ->
  collect i items !! k = Some d -> index d = i + Z.of_nat k.
Proof.
  induction items as [|item rest IH]; intros i k d Hall Hk; [done|].
  cbn [collect] in Hk.
  destruct (entry i item) as [d0|] eqn:E.
  - destruct k as [|k]; cbn in Hk.
    + injection Hk as <-. apply entry_index in E. lia.
    + rewrite (IH (i + 1) k d); [lia| |done].
      intros j it Hj. specialize (Hall (S j) it Hj).
      by replace (i + 1 + Z.of_nat j) with (i + Z.of_nat (S j)) by lia.
  - specialize (Hall 0%nat item eq_refl).
    by replace (i + Z.of_nat 0) with i in Hall by lia.
Qed.

(** *** The keyboard *)

Lemma device_rows_lookup current_device devices : forall rows k d,
  device_rows current_device devices = Py.Returns rows ->
  devices !! k = Some d ->
  exists written shown,
    PyText.str_of_int (index d) = Py.Returns written
    /\ rows !! k = Some [Button shown (Py.lit "audio_" ++ written)].
Proof.
  induction devices as [|d0 rest IH]; intros rows k d Hrows Hk; [done|].
  cbn [device_rows] in Hrows. unfold device_row in Hrows.
  destruct (PyText.str_of_int (index d0)) as [w|] eqn:Ew; [|done].
  destruct (device_rows current_device rest) as [rows'|]; [|done].
  injection Hrows as <-.
  destruct k as [|k]; cbn in Hk.
  - injection Hk as <-. eauto.
  - by apply (IH rows' k d).
Qed.

Lemma keyboard_lookup devices current_device rows k d :
  get_audio_devices_keyboard devices current_device = Py.Returns rows ->
  devices !! k = Some d ->
  exists written shown,
    PyText.str_of_int (index d) = Py.Returns written
    /\ rows !! k = Some [Button shown (Py.lit "audio_" ++ written)].
Proof.
  unfold get_audio_devices_keyboard.
  destruct (device_rows current_device devices) as [rows'|] eqn:E; [|done].
  intros [= <-] Hk.
  destruct (device_rows_lookup _ _ _ _ _ E Hk) as (w & shown & Hw & Hrow).
  exists w, shown. split; [done|].
  by rewrite lookup_app_l by by eapply lookup_lt_Some.
Qed.

Section Handler.

Variable ALLOWED_USER_IDS : list Z.
Variable db : PyText.unicode_data.
Variable set_audio_device : Py.str -> bool.

Local Abbreviation is_authorized := (AccessGate.is_authorized ALLOWED_USER_IDS).
Local Abbreviation callback_audio_device :=
  (callback_audio_device ALLOWED_USER_IDS db set_audio_device).

(** What the handler does with the device it has picked. *)
Local Abbreviation switch_to d a :=
  (if set_audio_device (id d)
   then (Switched (id d) (PyText.upto 30 (name d)), handle_dropped a)
   else (SwitchFailed (id d), a)).

(** A datum written for index [i] picks the entry at list position [i]. *)
Lemma press user_id i written devices a :
  is_authorized user_id = true ->
  0 <= i ->
  PyText.str_of_int i = Py.Returns written ->
  callback_audio_device user_id (Py.lit "audio_" ++ written) devices a
  = Py.Returns
      match devices !! Z.to_nat i with
      | Some d => switch_to d a
      | None => (NotFound, a)
      end.
Proof.
  intros Ha Hi Hw. unfold AudioDevices.callback_audio_device.
  rewrite Ha. cbn [negb].
  change (Py.lit "audio_") with (97%N :: Py.lit "udio_").
  rewrite (datum_reads_back db 97 (Py.lit "udio_") i written) by done.
  destruct (Z.ltb_spec i (Z.of_nat (length devices))) as [Hlt|Hge].
  - assert ((i <? 0) = false) as Hneg by lia.
    unfold getitem. cbv zeta. rewrite !Hneg.
    destruct (devices !! Z.to_nat i) as [d|] eqn:E.
    + unfold handle_dropped. by destruct (set_audio_device (id d)).
    + apply lookup_ge_None in E. lia.
  - rewrite (lookup_ge_None_2 devices (Z.to_nat i)) by lia. done.
Qed.

(** X15.  When every position of the endpoint collection yields a list
    entry, each device button of the keyboard switches to the device it
    names: pressing the button in row [k] runs [set_audio_device] on the id
    of the [k]-th device, and on success drops the cached volume handle
    while keeping the cached level. *)
Theorem every_button_picks_its_device user_id items result current_device
    rows k d a :
  is_authorized user_id = true ->
  (forall j item, items !! j = Some item ->
                  entry (Z.of_nat j) item <> None) ->
  get_audio_devices_keyboard (get_audio_devices (Collection items) result)
    current_device = Py.Returns rows ->
  get_audio_devices (Collection items) result !! k = Some d ->
  exists b,
    rows !! k = Some [b]
    /\ callback_audio_device user_id (callback_data b)
         (get_audio_devices (Collection items) result) a
       = Py.Returns (switch_to d a).
Proof.
  intros Ha Hall Hrows Hk.
  destruct (keyboard_lookup _ _ _ _ _ Hrows Hk) as (w & shown & Hw & Hrow).
  exists (Button shown (Py.lit "audio_" ++ w)). split; [done|].
  cbn [get_audio_devices callback_data] in *.
  assert (index d = Z.of_nat k) as Hidx.
  { rewrite (collect_full items 0 k d); [lia| |done].
    intros j item Hj. by apply Hall. }
  rewrite (press user_id (index d) w) by (done || lia).
  by rewrite Hidx, Nat2Z.id, Hk.
Qed.

(** X16.  The callback datum carries the position in the enumeration, but
    the handler uses it as a position in the list, from which skipped
    positions are missing.  So the button of a device that stands after a
    skipped position (its index exceeds its row) never switches to that
    device: it answers that the device was not found, or runs
    [set_audio_device] on a later device of the list. *)
Theorem skipped_position_shifts_buttons user_id e result current_device
    rows k d a :
  is_authorized user_id = true ->
  get_audio_devices_keyboard (get_audio_devices e result) current_device
  = Py.Returns rows ->
  get_audio_devices e result !! k = Some d ->
  Z.of_nat k < index d ->
  exists b,
    rows !! k = Some [b]
    /\ (callback_audio_device user_id (callback_data b)
          (get_audio_devices e result) a
        = Py.Returns (NotFound, a)
        \/ exists k' d',
             get_audio_devices e result !! k' = Some d'
             /\ index d < index d'
             /\ callback_audio_device user_id (callback_data b)
                  (get_audio_devices e result) a
                = Py.Returns (switch_to d' a)).
Proof.
  intros Ha Hrows Hk Hshift.
  destruct (keyboard_lookup _ _ _ _ _ Hrows Hk) as (w & shown & Hw & Hrow).
  exists (Button shown (Py.lit "audio_" ++ w)). split; [done|].
  cbn [callback_data].
  rewrite (press user_id (index d) w) by (done || lia).
  destruct (get_audio_devices e result !! Z.to_nat (index d)) as [d'|] eqn:E;
    [right|by left].
  exists (Z.to_nat (index d)), d'. split; [done|]. split; [|done].
  eapply (ascending_lt _ 0 k (Z.to_nat (index d)));
    eauto using get_audio_devices_ascending. lia.
Qed.

End Handler.

Lemma every_button_picks_its_device_witness :
  callback_audio_device [1001] PyText.ascii_digits (fun _ => true) 1001
    (Py.lit "audio_1")
    (get_audio_devices (Collection two_endpoints) Py.Raises) Volume.cached_35
  = Py.Returns
      (Switched (Py.lit "{0.0.0}.{b}") (Py.lit "Device 1"),
       handle_dropped Volume.cached_35).
Proof.
  assert (forall j item, two_endpoints !! j = Some item ->
                         entry (Z.of_nat j) item <> None) as Hall.
  { intros [|[|[|j]]] item; cbn; intros [= <-] || intros [=]; done. }
  destruct (every_button_picks_its_device [1001] PyText.ascii_digits
              (fun _ => true) 1001 two_endpoints Py.Raises (Py.lit "Speakers")
              _ 1%nat _ Volume.cached_35 eq_refl Hall eq_refl eq_refl)
    as (b & Hb & H).
  injection Hb as <-. exact H.
Defined.

Lemma skipped_position_shifts_buttons_witness :
  callback_audio_device [1001] PyText.ascii_digits (fun _ => true) 1001
    (Py.lit "audio_2")
    (get_audio_devices (Collection three_endpoints) Py.Raises)
    Volume.cached_35
  = Py.Returns (NotFound, Volume.cached_35).
Proof.
  destruct (skipped_position_shifts_buttons [1001] PyText.ascii_digits
              (fun _ => true) 1001 (Collection three_endpoints) Py.Raises
              (Py.lit "Speakers") _ 1%nat _ Volume.cached_35
              eq_refl eq_refl eq_refl eq_refl)
    as (b & Hb & [H|(k' & d' & _ & _ & H)]);
    injection Hb as <-; [exact H|discriminate H].
Defined.

End AudioDevicesFacts.

(** ** Processes *)

Module ProcessesFacts.
Import Processes.

Lemma kill_loop_spec name procs : forall killed gone,
  kill_loop name procs killed gone
  = (killed + Z.of_nat (length (doomed name procs)),
     gone ++ map pid (doomed name procs)).
Proof.
  induction procs as [|proc rest IH]; intros killed gone.
  - cbn. by rewrite Z.add_0_r, app_nil_r.
  - cbn [kill_loop doomed List.filter].
    destruct (matches name proc); cbn [andb]; [|apply IH].
    destruct (kill proc); rewrite IH; [|done..].
    cbn [length map]. rewrite <- app_assoc, Nat2Z.inj_succ.
    f_equal. unfold doomed. lia.

Qed.

Lemma doomed_spec name procs proc :
  proc ∈ doomed name procs
  <-> proc ∈ procs /\ matches name proc = true /\ kill proc = Killed.
Proof.
  unfold doomed. rewrite !list_elem_of_In, filter_In, andb_true_iff.
  by destruct (kill proc); intuition.
Qed.

Lemma matches_spec name proc :
  matches name proc = true
  <-> exists shown before after,
        info_name proc = Some shown /\ shown <> []
        /\ Py.lower shown = before ++ Py.lower name ++ after.
Proof.
  unfold matches. destruct (info_name proc) as [[|c s]|].
  - split; [done|]. by intros (? & ? & ? & [= <-] & ? & _).
  - rewrite SafetyFilterFacts.contains_spec. split.
    + intros (before & after & H). by exists (c :: s), before, after.
    + intros (shown & before & after & [= <-] & _ & H). eauto.
  - split; [done|]. by intros (? & ? & ? & [=] & _).
Qed.


End ProcessesFacts.

(** ** Progress bars and uptime *)

Module SystemFacts.
Import System.

(** The bars of all percentages from 0.0 to 100.0. *)
Lemma bar_table :
  forallb
    (fun n =>
       let tenths := Z.of_nat n in
       match get_progress_bar (one_decimal tenths) 10 with
       | Py.Returns bar =>
           bool_decide
             (bar = times filled_cell (tenths / 100)
                    ++ times empty_cell (10 - tenths / 100))
       | Py.Raises => false
       end)
    (seq 0 1001) = true.
Proof. by vm_compute. Qed.

(** X18.  For every percentage between 0.0 and 100.0 with one decimal,
    as [psutil] reports them, the bar of [get_progress_bar] has exactly
    ten cells, of which the whole tens of the percentage are filled: the
    two float operations never round a bar across a cell boundary. *)
Theorem progress_bar_shows_whole_tens tenths :
  0 <= tenths <= 1000 ->
  get_progress_bar (one_decimal tenths) 10
  = Py.Returns (times filled_cell (tenths / 100)
                ++ times empty_cell (10 - tenths / 100))
  /\ length (times filled_cell (tenths / 100)
             ++ times empty_cell (10 - tenths / 100)) = 10%nat.
Proof.
  intros Hr. split.
  - pose proof bar_table as Ht. rewrite forallb_forall in Ht.
    specialize (Ht (Z.to_nat tenths)).
    rewrite Z2Nat.id in Ht by lia. cbv zeta in Ht.
    destruct (get_progress_bar _ _) as [bar|].
    + f_equal. eapply bool_decide_eq_true_1, Ht, in_seq. lia.
    + discriminate Ht. apply in_seq. lia.
  - unfold times. rewrite length_app, !length_replicate.
    assert (0 <= tenths / 100 <= 10).
    { split; [apply Z.div_pos; lia|]. apply Z.div_le_upper_bound; lia. }
    lia.
Qed.

Lemma progress_bar_shows_whole_tens_witness :
  0 <= 999 <= 1000
  /\ get_progress_bar (one_decimal 999) 10
     = Py.Returns (replicate 9 filled_cell ++ replicate 1 empty_cell).
Proof.
  assert (0 <= 999 <= 1000) as H by lia.
  split; [exact H|].
  destruct (progress_bar_shows_whole_tens 999 H) as [E _]. exact E.
Defined.

Lemma join_nonempty sep p parts : p <> [] -> join sep (p :: parts) <> [].
Proof. destruct p; [done|]. by destruct parts. Qed.

Lemma whole_seconds microseconds :
  timedelta_days microseconds * 86400 + timedelta_seconds microseconds
  = microseconds / 1000000.
Proof.
  unfold timedelta_days, timedelta_seconds.
  pose proof (Z.div_mod microseconds 86400000000 ltac:(lia)) as H1.
  pose proof (Z.mod_pos_bound microseconds 86400000000 ltac:(lia)) as B1.
  pose proof (Z.div_mod (microseconds mod 86400000000) 1000000 ltac:(lia)) as H2.
  pose proof (Z.mod_pos_bound (microseconds mod 86400000000) 1000000 ltac:(lia))
    as B2.
  apply (Z.div_unique_pos _ _ _ ((microseconds mod 86400000000) mod 1000000));
    lia.
Qed.

Lemma seconds_of_day microseconds :
  0 <= timedelta_seconds microseconds < 86400.
Proof.
  unfold timedelta_seconds.
  pose proof (Z.mod_pos_bound microseconds 86400000000 ltac:(lia)) as B1.
  split; [apply Z.div_pos; lia|]. apply Z.div_lt_upper_bound; lia.
Qed.

(** X19.  With the boot time not after the present, the parts that
    [get_uptime] shows add up to the uptime in whole seconds: a unit is
    left out only when its number is zero, so nothing is lost but the
    fraction of a second.  Every number shown is positive, except for the
    lone [0] of seconds shown when the uptime is below one second, and the
    text is never empty. *)
Theorem uptime_parts_add_up now boot_time :
  boot_time <= now ->
  total_seconds (uptime_parts now boot_time) = (now - boot_time) / 1000000
  /\ (Forall (fun part => 0 < fst part) (uptime_parts now boot_time)
      \/ uptime_parts now boot_time = [(0, Seconds)])
  /\ get_uptime now boot_time <> [].
Proof.
  intros Hle.
  pose proof (whole_seconds (now - boot_time)) as Hw.
  pose proof (seconds_of_day (now - boot_time)) as Hs.
  assert (0 <= timedelta_days (now - boot_time)) as Hd
    by (apply Z.div_pos; lia).
  unfold get_uptime, uptime_parts. cbv zeta.
  set (days := timedelta_days (now - boot_time)) in *.
  set (s := timedelta_seconds (now - boot_time)) in *.
  pose proof (Z.div_mod s 3600 ltac:(lia)) as H1.
  pose proof (Z.mod_pos_bound s 3600 ltac:(lia)) as B1.
  pose proof (Z.div_mod (s mod 3600) 60 ltac:(lia)) as H2.
  pose proof (Z.mod_pos_bound (s mod 3600) 60 ltac:(lia)) as B2.
  assert (0 <= s / 3600) as Hh by (apply Z.div_pos; lia).
  assert (0 <= s mod 3600 / 60) as Hm by (apply Z.div_pos; lia).
  set (hours := s / 3600) in *.
  set (minutes := s mod 3600 / 60) in *.
  set (seconds := (s mod 3600) mod 60) in *.
  destruct (Z.ltb_spec 0 days), (Z.ltb_spec 0 hours),
    (Z.ltb_spec 0 minutes), (Z.ltb_spec 0 seconds);
    cbn [app orb total_seconds fold_right fst snd lasts map];
    (split; [lia|split;
      [first [left; repeat constructor; cbn [fst]; lia
             |right; repeat f_equal; lia]
      |apply join_nonempty;
       by destruct (PyText.decimal_text _)]]).
Qed.

Lemma uptime_parts_add_up_witness :
  0 <= 93784500000
  /\ uptime_parts 93784500000 0
     = [(1, Days); (2, Hours); (3, Minutes); (4, Seconds)]
  /\ total_seconds (uptime_parts 93784500000 0) = 93784500000 / 1000000.
Proof.
  assert (0 <= 93784500000) as H by lia.
  split; [exact H|]. split; [reflexivity|].
  destruct (uptime_parts_add_up 93784500000 0 H) as [E _].
  rewrite Z.sub_0_r in E. exact E.
Defined.

End SystemFacts.

(** ** Mute *)

Module MuteFacts.
Import Mute.

Lemma interface_settles a p v :
  snd (Volume._get_volume_interface a p) = Some v ->
  Volume._get_volume_interface (fst (Volume._get_volume_interface a p)) p
  = Volume._get_volume_interface a p.
Proof.
  unfold Volume._get_volume_interface.
  destruct (Volume._volume_interface a) as [u|] eqn:E; cbn; [by rewrite E|].
  by destruct (Volume.speakers_ok p).
Qed.

(** X20.  When the handle can be had and [GetMute] and [SetMute] answer,
    [toggle_mute] inverts the mute flag and returns the new flag, which is
    what [is_muted] reports next, and a second call restores the endpoint
    and returns the first flag.  In every other case it returns [True]
    whatever the flag is and leaves the endpoint to the key press, while
    [is_muted] answers [False] when the handle or [GetMute] is not to be
    had: the two reports then contradict each other. *)
Theorem toggle_mute_inverts_or_says_muted send_mute_key a p m :
  (responsive a p m = true ->
   let r := toggle_mute send_mute_key a p m in
   snd r = negb (muted m)
   /\ muted (snd (fst r)) = negb (muted m)
   /\ snd (is_muted (fst (fst r)) p (snd (fst r))) = negb (muted m)
   /\ toggle_mute send_mute_key (fst (fst r)) p (snd (fst r))
      = ((fst (fst r), m), muted m))
  /\ (responsive a p m = false ->
      snd (toggle_mute send_mute_key a p m) = true
      /\ snd (fst (toggle_mute send_mute_key a p m)) = send_mute_key m
      /\ (snd (Volume._get_volume_interface a p) = None
          \/ GetMute_ok m = false ->
          snd (is_muted a p m) = false)).
Proof.
  unfold responsive. split.
  - destruct (Volume._get_volume_interface a p) as [a1 [v|]] eqn:E;
      cbn [snd]; [|done].
    intros [Hg Hs]%andb_true_iff.
    pose proof (interface_settles a p v) as Hst. rewrite E in Hst.
    cbn [fst snd] in Hst. specialize (Hst eq_refl).
    assert (toggle_mute send_mute_key a p m
            = ((a1, {| muted := negb (muted m); GetMute_ok := GetMute_ok m;
                       SetMute_ok := SetMute_ok m |}), negb (muted m))) as Ht.
    { unfold toggle_mute. by rewrite E, Hg, Hs. }
    rewrite Ht. cbv zeta. cbn [fst snd muted].
    split; [done|]. split; [done|]. split.
    + unfold is_muted. rewrite Hst. cbn [GetMute_ok muted]. by rewrite Hg.
    + unfold toggle_mute. rewrite Hst. cbn [GetMute_ok SetMute_ok muted].
      rewrite Hg, Hs, negb_involutive.
      destruct m as [mu g s]; cbn in Hg, Hs |- *. by subst.
  - unfold toggle_mute, is_muted.
    destruct (Volume._get_volume_interface a p) as [a1 [v|]] eqn:E;
      cbn [snd fst]; [|done].
    destruct (GetMute_ok m); cbn [andb].
    + intros ->. split; [done|]. split; [done|]. by intros [?|?].
    + done.
Qed.

End MuteFacts.

(** ** Brightness *)

Module BrightnessFacts.
Import Brightness.

Lemma set_brightness_hands level d :
  exists new,
    handed (fst (set_brightness level d)) = handed d ++ new
    /\ (length new <= 1)%nat
    /\ Forall (fun v => 0 <= v <= 100) new
    /\ (import_ok d = true -> new = [Volume.clamp level]).
Proof.
  unfold set_brightness. destruct (import_ok d).
  - exists [Volume.clamp level]. cbn [fst handed].
    rewrite VolumeFacts.clamp_max_min.
    pose proof (VolumeFacts.clamp_range level).
    split_and!; [done|cbn; lia| |done].
    apply Forall_cons. split; [done|apply Forall_nil; exact I].
  - exists []. cbn [fst]. rewrite app_nil_r.
    split_and!; [done|cbn; lia| |done].
    apply Forall_nil; exact I.
Qed.

Section Handler.

Variable ALLOWED_USER_IDS : list Z.
Variable db : PyText.unicode_data.

Local Abbreviation callback_brightness :=
  (callback_brightness ALLOWED_USER_IDS db).

(** X21.  Whatever the callback datum and whatever the brightness reads,
    [callback_brightness] hands the driver at most one level, and only a
    level between 0 and 100.  The two step buttons hand it the reading
    moved by 20 and clamped; as a failed reading counts as -1, they then
    hand it 19 and 0. *)
Theorem brightness_stays_in_range user_id data before after d reply d' :
  callback_brightness user_id data before after d = Py.Returns (reply, d') ->
  (exists new,
     handed d' = handed d ++ new
     /\ (length new <= 1)%nat
     /\ Forall (fun v => 0 <= v <= 100) new)
  /\ (AccessGate.is_authorized ALLOWED_USER_IDS user_id = true ->
      import_ok d = true ->
      (data = Py.lit "br_plus20" ->
       handed d' = handed d ++ [Volume.clamp (get_brightness before + 20)])
      /\ (data = Py.lit "br_minus20" ->
          handed d' = handed d ++ [Volume.clamp (get_brightness before - 20)])).
Proof.
  unfold Brightness.callback_brightness.
  destruct (AccessGate.is_authorized ALLOWED_USER_IDS user_id); cbn [negb].
  2:{ intros [= <- <-]. split; [|done]. exists []. rewrite app_nil_r.
      split; [done|]. split; [cbn; lia|constructor]. }
  cbv zeta. intros H. split.
  - repeat case_bool_decide.
    all: try destruct (PyText.int db _) as [level|]; try done.
    all: injection H as _ Hd; rewrite <- Hd.
    all: try (exists []; rewrite app_nil_r;
              split; [done|]; split; [cbn; lia|constructor]).
    all: match goal with
         | |- context [set_brightness ?l ?x] =>
             destruct (set_brightness_hands l x) as (new & ? & ? & ? & _);
             by exists new
         end.
  - intros _ Hi. split; intros ->.
    + revert H. vm_compute PyText.replace.
      rewrite bool_decide_eq_false_2 by done.
      rewrite bool_decide_eq_false_2 by done.
      rewrite bool_decide_eq_true_2 by done.
      intros [= _ <-].
      destruct (set_brightness_hands (get_brightness before + 20) d)
        as (new & -> & _ & _ & Hn). by rewrite Hn.
    + revert H. vm_compute PyText.replace.
      rewrite bool_decide_eq_false_2 by done.
      rewrite bool_decide_eq_true_2 by done.
      intros [= _ <-].
      destruct (set_brightness_hands (get_brightness before - 20) d)
        as (new & -> & _ & _ & Hn). by rewrite Hn.
Qed.

End Handler.

Lemma brightness_stays_in_range_witness :
  callback_brightness [1001] PyText.ascii_digits 1001 (Py.lit "br_plus20")
    Py.Raises Py.Raises fresh
  = Py.Returns (Some NotAvailable,
                {| import_ok := true; set_ok := true; handed := [19] |})
  /\ handed {| import_ok := true; set_ok := true; handed := [19] |}
     = handed fresh ++ [Volume.clamp (get_brightness Py.Raises + 20)].
Proof.
  assert (callback_brightness [1001] PyText.ascii_digits 1001
            (Py.lit "br_plus20") Py.Raises Py.Raises fresh
          = Py.Returns (Some NotAvailable,
                        {| import_ok := true; set_ok := true;
                           handed := [19] |})) as H by reflexivity.
  split; [exact H|].
  destruct (brightness_stays_in_range [1001] PyText.ascii_digits 1001 _ _ _
              _ _ _ H) as [_ Hs].
  destruct (Hs eq_refl eq_refl) as [Hp _]. exact (Hp eq_refl).
Defined.

End BrightnessFacts.
